(** * Bug Capturer: capture, deduplication, retention and redaction pipeline

  A shallow embedding of the parts of the browser extension that decide
  what is stored and what is shown:

  - [background.js]: [getStoredSteps], [storeSteps], [clearSteps],
    [compressScreenshot], [addStep], [cropScreenshotToArea] and the
    step list of [generateRTFReport];
  - the content script: [getSafeText], [recordStep], the console capture
    and the debounced [input] listener;
  - the popup: [renderSteps].

  JavaScript numbers that hold millisecond timestamps, pixel coordinates
  and lengths are integers here ([Z]); strings are sequences of 8-bit code
  units ([string]); [undefined] is [None]. An [async] function is the
  sequence of its steps, run to the end before the next one starts. *)

From Stdlib Require Import ZArith QArith Qminmax List String Ascii Bool Lia DecimalString Sorted.
Import ListNotations.

Set Implicit Arguments.

(** ** JavaScript string helpers *)

Module JsString.

Local Open Scope string_scope.

(** The double quote character, for template literals that contain one. *)
Definition dquote : string := String (ascii_of_nat 34) EmptyString.

(** Truthiness of a string: every string but the empty one. *)
Definition truthy (s : string) : bool :=
  match s with
  | EmptyString => false
  | String _ _ => true
  end.

(** [a || b] on strings. *)
Definition or_else (a b : string) : string := if truthy a then a else b.

(** [a || b || ... || z]: the first truthy operand, the last one otherwise. *)
Fixpoint first_truthy (l : list string) (last : string) : string :=
  match l with
  | [] => last
  | a :: r => if truthy a then a else first_truthy r last
  end.

(** [s.includes(sub)]. *)
Fixpoint includes (s sub : string) : bool :=
  String.prefix sub s ||
  match s with
  | EmptyString => false
  | String _ r => includes r sub
  end.

(** [c.toLowerCase()] on one code unit (only A-Z have an ASCII image). *)
Definition lower_char (c : ascii) : ascii :=
  let n := nat_of_ascii c in
  if (65 <=? n)%nat && (n <=? 90)%nat then ascii_of_nat (n + 32) else c.

Fixpoint toLowerCase (s : string) : string :=
  match s with
  | EmptyString => EmptyString
  | String c r => String (lower_char c) (toLowerCase r)
  end.

(** White space as [String.prototype.trim] sees it, among 8-bit code
    units: TAB, LF, VT, FF, CR, SPACE and NBSP. *)
Definition is_space (c : ascii) : bool :=
  let n := nat_of_ascii c in
  ((9 <=? n)%nat && (n <=? 13)%nat) || (n =? 32)%nat || (n =? 160)%nat.

Fixpoint trimStart (s : string) : string :=
  match s with
  | EmptyString => EmptyString
  | String c r => if is_space c then trimStart r else s
  end.

(** [trimEnd] keeps a character when it is not a space or when something
    is left after it. *)
Fixpoint trimEnd (s : string) : string :=
  match s with
  | EmptyString => EmptyString
  | String c r =>
      match trimEnd r with
      | EmptyString => if is_space c then EmptyString else String c EmptyString
      | r' => String c r'
      end
  end.

Definition trim (s : string) : string := trimEnd (trimStart s).

(** The string does not begin with white space. *)
Definition noLeadingSpace (s : string) : Prop :=
  match s with
  | EmptyString => True
  | String c _ => is_space c = false
  end.

(** [s.slice(0, n)] for [n >= 0]. *)
Fixpoint slice0 (n : nat) (s : string) : string :=
  match n, s with
  | O, _ => EmptyString
  | _, EmptyString => EmptyString
  | S k, String c r => String c (slice0 k r)
  end.

(** [a === b] on values that are a string or [undefined]. *)
Definition strict_eq (a b : option string) : bool :=
  match a, b with
  | None, None => true
  | Some x, Some y => String.eqb x y
  | _, _ => false
  end.

End JsString.

(** ** Results of awaited platform calls and of [async] functions *)

Inductive outcome (E A : Type) : Type :=
| Resolved (a : A)
| Rejected (e : E).

Arguments Resolved {E A} a.
Arguments Rejected {E A} e.

(** ** Screenshot codec ([background.js], [compressScreenshot] and
    [cropScreenshotToArea]) *)

Module Codec.

Import JsString.
Local Open Scope string_scope.
Local Open Scope Z_scope.

Record ImageBitmap := { imageWidth : Z; imageHeight : Z }.

Record Blob := { size : Z; bytes : string }.

(** What [fetch(dataURL)] resolves to, with the result of [response.blob()]. *)
Record FetchResponse := {
  responseOk : bool;
  status : Z;
  statusText : string;
  blob : outcome string Blob
}.

(** The crop rectangle of a custom-area capture. *)
Record Area := { x : Z; y : Z; width : Z; height : Z }.

(** An [OffscreenCanvas] with the source rectangle that [drawImage] copies
    into it. *)
Record Canvas := {
  canvasWidth : Z;
  canvasHeight : Z;
  sourceImage : ImageBitmap;
  sourceRect : Area
}.

(** The platform services the codec calls. [Rejected msg] is a call that
    throws, or a promise that rejects, with [Error(msg)]. *)
Record Platform := {
  (** [performance.memory.usedJSHeapSize], [None] without [performance.memory] *)
  usedJSHeapSize : option Z;
  fetch : string -> outcome string FetchResponse;
  createImageBitmap : Blob -> outcome string ImageBitmap;
  (** [new OffscreenCanvas(w, h)] then [getContext('2d')]; [false] is a
      [null] context *)
  getContext2d : Z -> Z -> outcome string bool;
  drawImage : Canvas -> outcome string unit;
  (** [canvas.convertToBlob({type, quality})] *)
  convertToBlob : Canvas -> string -> Q -> outcome string Blob;
  (** [FileReader.readAsDataURL]: [onload] with the result, or [onerror] *)
  readAsDataURL : Blob -> outcome string string;
  (** [Math.floor] of each dimension times [Math.sqrt(maxPixels / (w * h))]:
      floating point, left to the platform *)
  scaleToPixels : Z -> Z -> Z -> Z * Z;
  (** [Math.floor] of each dimension times
      [Math.min(maxWidth / w, maxHeight / h)] *)
  scaleToBox : Z -> Z -> Z -> Z -> Z * Z
}.

Section WithPlatform.

Variable P : Platform.

(** [dataURL.length * 0.75 > 50 * 1024 * 1024], with both sides times 4. *)
Definition tooLargeToCompress (dataURL : string) : bool :=
  4 * (50 * 1024 * 1024) <? 3 * Z.of_nat (String.length dataURL).

Definition highMemory (limit : Z) : bool :=
  match usedJSHeapSize P with
  | Some used => limit <? used
  | None => false
  end.

(** The dimensions the compressed image is drawn at (lines 93-111). *)
Definition targetDimensions (bmp : ImageBitmap) : Z * Z :=
  let maxWidth := 1000 in
  let maxHeight := 800 in
  let maxPixels := 800000 in
  let '(w, h) := (imageWidth bmp, imageHeight bmp) in
  let '(w, h) := if maxPixels <? w * h then scaleToPixels P maxPixels w h else (w, h) in
  if (maxWidth <? w) || (maxHeight <? h) then scaleToBox P maxWidth maxHeight w h else (w, h).

(** The body of the [try] block of [compressScreenshot], up to the
    [return new Promise(...)]: every failure in it is thrown inside the
    [try]. The promise it returns is [inr], not awaited there. *)
Definition compressTry (dataURL : string) (quality : Q)
  : outcome string (string + Blob) :=
  if highMemory (200 * 1024 * 1024) then Resolved (inl dataURL)
  else if tooLargeToCompress dataURL then Resolved (inl dataURL)
  else
    match fetch P dataURL with
    | Rejected e => Rejected e
    | Resolved response =>
      match blob response with
      | Rejected e => Rejected e
      | Resolved b =>
        match createImageBitmap P b with
        | Rejected e => Rejected e
        | Resolved imageBitmap =>
          let '(w, h) := targetDimensions imageBitmap in
          match getContext2d P w h with
          | Rejected e => Rejected e
          | Resolved false => Rejected "Failed to get 2D context for compression"
          | Resolved true =>
            let canvas :=
              {| canvasWidth := w; canvasHeight := h; sourceImage := imageBitmap;
                 sourceRect := {| x := 0; y := 0; width := imageWidth imageBitmap;
                                  height := imageHeight imageBitmap |} |} in
            match drawImage P canvas with
            | Rejected e => Rejected e
            | Resolved _ =>
              let adjustedQuality :=
                if 500000 <? w * h then Qmin quality (5 # 10) else quality in
              match convertToBlob P canvas "image/jpeg" adjustedQuality with
              | Rejected e => Rejected e
              | Resolved compressedBlob => Resolved (inr compressedBlob)
              end
            end
          end
        end
      end
    end.

(** [compressScreenshot]: the [catch] turns a failure of the [try] body
    into the original data URL. The [FileReader] promise is returned
    without [await], so the function resolves to it outside the [try]: its
    rejection is the rejection of [compressScreenshot]. *)
Definition compressScreenshot (dataURL : string) (quality : Q)
  : outcome string string :=
  match compressTry dataURL quality with
  | Rejected _ => Resolved dataURL
  | Resolved (inl original) => Resolved original
  | Resolved (inr compressedBlob) =>
      match readAsDataURL P compressedBlob with
      | Resolved result => Resolved result
      | Rejected _ => Rejected "Failed to convert compressed image to data URL"
      end
  end.

End WithPlatform.

End Codec.

Module Crop.

Import JsString Codec.
Local Open Scope string_scope.
Local Open Scope Z_scope.

(** A number in a template literal. *)
Definition show (z : Z) : string := NilZero.string_of_int (Z.to_int z).

(** [JSON.stringify(area)]. *)
Definition stringifyArea (area : Area) : string :=
  "{" ++ dquote ++ "x" ++ dquote ++ ":" ++ show (x area) ++
  "," ++ dquote ++ "y" ++ dquote ++ ":" ++ show (y area) ++
  "," ++ dquote ++ "width" ++ dquote ++ ":" ++ show (width area) ++
  "," ++ dquote ++ "height" ++ dquote ++ ":" ++ show (height area) ++ "}".

(** Truthiness of a number: every number but 0 (and NaN, which [Z] has not). *)
Definition truthyNumber (z : Z) : bool := negb (z =? 0).

(** Lines 267-284: the clamped rectangle. *)
Definition clampArea (imageBitmap : ImageBitmap) (area : Area) : Area :=
  let W := imageWidth imageBitmap in
  let H := imageHeight imageBitmap in
  let cx := Z.max 0 (Z.min (x area) (W - 1)) in
  let cy := Z.max 0 (Z.min (y area) (H - 1)) in
  let cw := Z.max 1 (Z.min (width area) (W - Z.max 0 (x area))) in
  let ch := Z.max 1 (Z.min (height area) (H - Z.max 0 (y area))) in
  let cw := if W <? cx + cw then W - cx else cw in
  let ch := if H <? cy + ch then H - cy else ch in
  {| x := cx; y := cy; width := Z.max 1 cw; height := Z.max 1 ch |}.

Section WithPlatform.

Variable P : Platform.

(** [cropScreenshotToArea(dataURL, area)]; [area] is [None] for [null] or
    [undefined]. Every error is rethrown by the [catch]. Next to the data
    URL the result carries the canvas that was drawn, with the source
    rectangle handed to [drawImage]. *)
Definition cropScreenshotToArea (dataURL : string) (area : option Area)
  : outcome string (Canvas * string) :=
  if negb (truthy dataURL) then Rejected "Invalid dataURL provided for cropping"
  else
    match area with
    | None => Rejected "Invalid area coordinates provided for cropping"
    | Some area =>
      if negb (truthyNumber (x area)) || negb (truthyNumber (y area)) ||
         negb (truthyNumber (width area)) || negb (truthyNumber (height area))
      then Rejected "Invalid area coordinates provided for cropping"
      else
        match fetch P dataURL with
        | Rejected e => Rejected e
        | Resolved response =>
          if negb (responseOk response)
          then Rejected ("Failed to fetch dataURL: " ++ show (status response) ++
                         " " ++ statusText response)
          else
            match blob response with
            | Rejected e => Rejected e
            | Resolved b =>
              match createImageBitmap P b with
              | Rejected e => Rejected e
              | Resolved imageBitmap =>
                let area := clampArea imageBitmap area in
                if (width area <=? 0) || (height area <=? 0) ||
                   (10000 <? width area) || (10000 <? height area)
                then Rejected ("Invalid canvas dimensions: " ++ show (width area) ++
                               "x" ++ show (height area) ++ ". Area: " ++
                               stringifyArea area)
                else
                  match getContext2d P (width area) (height area) with
                  | Rejected e => Rejected e
                  | Resolved false =>
                      Rejected "Failed to get 2D context from OffscreenCanvas"
                  | Resolved true =>
                    let canvas :=
                      {| canvasWidth := width area; canvasHeight := height area;
                         sourceImage := imageBitmap; sourceRect := area |} in
                    match drawImage P canvas with
                    | Rejected e => Rejected e
                    | Resolved _ =>
                      match convertToBlob P canvas "image/png" (8 # 10) with
                      | Rejected e => Rejected e
                      | Resolved croppedBlob =>
                        if size croppedBlob =? 0
                        then Rejected "Cropped image is empty - check area coordinates"
                        else
                          match readAsDataURL P croppedBlob with
                          | Resolved result => Resolved (canvas, result)
                          | Rejected _ =>
                              Rejected "Failed to convert cropped image to data URL"
                          end
                      end
                    end
                  end
              end
            end
        end
    end.

End WithPlatform.

(** The rectangle lies inside the image. *)
Definition withinImage (imageBitmap : ImageBitmap) (r : Area) : Prop :=
  0 <= x r /\ 0 <= y r /\ 1 <= width r /\ 1 <= height r /\
  x r + width r <= imageWidth imageBitmap /\
  y r + height r <= imageHeight imageBitmap.

(** A rectangle with no area: zero or negative width or height. *)
Definition degenerate (r : Area) : Prop := width r <= 0 \/ height r <= 0.

End Crop.

(** ** Persistence gateway ([background.js], [getStoredSteps], [storeSteps],
    [clearSteps], [addStep]) *)

Module Store.

Import JsString.
Local Open Scope Z_scope.

Definition MAX_STORAGE_SIZE : Z := 50 * 1024 * 1024.
Definition MAX_STEPS : nat := 1000.

Record Meta := { action : option string; value : option string }.

Record Step := {
  type : option string;
  time : Z;
  url : option string;
  text : option string;
  selector : option string;
  meta : option Meta;
  dataURL : option string
}.

(** [step.meta?.action] and [step.meta?.value]. *)
Definition metaAction (step : Step) : option string :=
  match meta step with Some m => action m | None => None end.

Definition metaValue (step : Step) : option string :=
  match meta step with Some m => value m | None => None end.

(** *** [chrome.storage.local], one key *)

Inductive StorageCall :=
| StorageGet
| StorageSet (steps : list Step)
| StorageRemove.

(** The value under [STORAGE_KEY] ([None]: no such key), the outcome of
    each storage call still to come ([None]: it resolves, [Some msg]: it
    rejects with [Error(msg)]; calls beyond the list resolve), and the
    calls made so far, oldest first. *)
Record World := {
  stored : option (list Step);
  faults : list (option string);
  calls : list StorageCall
}.

Definition M (A : Type) : Type := World -> A * World.

Definition ret {A : Type} (a : A) : M A := fun w => (a, w).

Definition bind {A B : Type} (c : M A) (k : A -> M B) : M B :=
  fun w => let '(a, w') := c w in k a w'.

Declare Scope store_scope.
Delimit Scope store_scope with store.
Notation "x <- c ;; k" := (bind c (fun x => k))
  (at level 100, c at next level, right associativity) : store_scope.
Local Open Scope store_scope.

(** One storage call: it is logged, takes the next outcome, and applies
    its effect when it resolves. *)
Definition storageCall (call : StorageCall)
  (effect : option (list Step) -> option (list Step)) : M (outcome string unit) :=
  fun w =>
    match faults w with
    | Some msg :: rest =>
        (Rejected msg,
         {| stored := stored w; faults := rest; calls := calls w ++ [call] |})
    | None :: rest =>
        (Resolved tt,
         {| stored := effect (stored w); faults := rest; calls := calls w ++ [call] |})
    | [] =>
        (Resolved tt,
         {| stored := effect (stored w); faults := []; calls := calls w ++ [call] |})
    end.

Definition storageSet (steps : list Step) : M (outcome string unit) :=
  storageCall (StorageSet steps) (fun _ => Some steps).

Definition storageRemove : M (outcome string unit) :=
  storageCall StorageRemove (fun _ => None).

Definition storageGet : M (outcome string (option (list Step))) :=
  fun w =>
    let '(r, w') := storageCall StorageGet (fun v => v) w in
    match r with
    | Resolved _ => (Resolved (stored w), w')
    | Rejected msg => (Rejected msg, w')
    end.

(** The [{ ok, error }] object the gateway answers with. *)
Record Response := { ok : bool; error : option string }.

(** [steps.slice(-n)]. *)
Definition lastN (n : nat) (steps : list Step) : list Step :=
  skipn (List.length steps - n) steps.

Section WithEnvironment.

(** [JSON.stringify(steps).length]. *)
Variable json_length : list Step -> Z.

Variable P : Codec.Platform.

(** [clearSteps]. *)
Definition clearSteps : M Response :=
  r <- storageRemove ;;
  match r with
  | Resolved _ => ret {| ok := true; error := None |}
  | Rejected msg => ret {| ok := false; error := Some msg |}
  end.

(** The [while] loop of [storeSteps]: drop the oldest tenth while the log
    is over the byte budget and longer than 10. [Math.floor(n * 0.1)] is
    [n / 10] on the lengths an array can have. Each turn removes at least
    one step, so [length steps] turns are enough. *)
Fixpoint trimLoop (fuel : nat) (trimmedSteps : list Step) : list Step :=
  match fuel with
  | O => trimmedSteps
  | S fuel' =>
      if (MAX_STORAGE_SIZE <? json_length trimmedSteps) &&
         (10 <? List.length trimmedSteps)%nat
      then trimLoop fuel' (skipn (List.length trimmedSteps / 10) trimmedSteps)
      else trimmedSteps
  end.

Definition trimToBudget (steps : list Step) : list Step :=
  if MAX_STORAGE_SIZE <? json_length steps
  then trimLoop (List.length steps) steps
  else steps.

(** [storeSteps]. *)
Definition storeSteps (steps : list Step) : M Response :=
  let steps := trimToBudget steps in
  r <- storageSet steps ;;
  match r with
  | Resolved _ => ret {| ok := true; error := None |}
  | Rejected msg =>
      _ <- (if truthy msg && includes msg "QUOTA_EXCEEDED"%string
            then (_ <- clearSteps ;; ret tt)
            else ret tt) ;;
      ret {| ok := false; error := Some msg |}
  end.

(** [getStoredSteps]. *)
Definition getStoredSteps : M (list Step) :=
  r <- storageGet ;;
  match r with
  | Rejected _ => ret []
  | Resolved v =>
      let steps := match v with Some steps => steps | None => [] end in
      if (MAX_STEPS <? List.length steps)%nat
      then
        let trimmedSteps := lastN MAX_STEPS steps in
        _ <- storeSteps trimmedSteps ;;
        ret trimmedSteps
      else ret steps
  end.

(** Lines 166-174: compress the screenshot the step carries, if any; the
    image is deleted when compression throws. *)
Definition compressIfPresent (newStep : Step) : Step :=
  let withImage (d : option string) :=
    {| type := type newStep; time := time newStep; url := url newStep;
       text := text newStep; selector := selector newStep;
       meta := meta newStep; dataURL := d |} in
  match dataURL newStep with
  | Some d =>
      if truthy d
      then
        match Codec.compressScreenshot P d (7 # 10) with
        | Resolved d' => withImage (Some d')
        | Rejected _ => withImage None
        end
      else newStep
  | None => newStep
  end.

End WithEnvironment.

(** The callback of [steps.some(...)] in [addStep]. *)
Definition duplicateOf (newStep step : Step) : bool :=
  let now := time newStep in
  let timeDiff := Z.abs (time step - now) in
  if (timeDiff <=? 100) &&
     strict_eq (selector step) (selector newStep) &&
     strict_eq (text step) (text newStep) &&
     strict_eq (metaAction step) (metaAction newStep) &&
     strict_eq (metaValue step) (metaValue newStep)
  then true
  else if (timeDiff <=? 25) &&
          strict_eq (selector step) (selector newStep) &&
          strict_eq (metaAction step) (metaAction newStep) &&
          strict_eq (metaAction step) (Some "click"%string)
  then true
  else if strict_eq (metaAction step) (Some "submit"%string) &&
          strict_eq (metaAction newStep) (Some "submit"%string)
  then false
  else if strict_eq (type step) (Some "screenshot"%string) &&
          strict_eq (type newStep) (Some "screenshot"%string)
  then false
  else false.

Definition isDuplicate (steps : list Step) (newStep : Step) : bool :=
  existsb (duplicateOf newStep) steps.

(** Lines 160-164: a full log loses its oldest step before the new one is
    looked at. *)
Definition makeRoom (steps : list Step) : list Step :=
  if (MAX_STEPS <=? List.length steps)%nat then tl steps else steps.

(** Lines 211-221: push unless duplicate, then keep the last 1000. *)
Definition pushUnlessDuplicate (steps : list Step) (newStep : Step) : list Step :=
  if isDuplicate steps newStep
  then steps
  else
    let steps := steps ++ [newStep] in
    if (1000 <? List.length steps)%nat
    then skipn (List.length steps - 1000) steps
    else steps.

(** The new step is filtered out by [addStep] on the log [steps]. *)
Definition suppressed (steps : list Step) (newStep : Step) : bool :=
  isDuplicate (makeRoom steps) newStep.

Section AddStep.

Variable json_length : list Step -> Z.
Variable P : Codec.Platform.

(** [addStep]. *)
Definition addStep (newStep : Step) : M Response :=
  steps <- getStoredSteps json_length ;;
  let steps := makeRoom steps in
  let newStep := compressIfPresent P newStep in
  storeSteps json_length (pushUnlessDuplicate steps newStep).

(** Appending a sequence of steps, one [addStep] after the other. *)
Fixpoint addSteps (newSteps : list Step) : M (list Response) :=
  match newSteps with
  | [] => ret []
  | s :: rest =>
      r <- addStep s ;;
      rs <- addSteps rest ;;
      ret (r :: rs)
  end.

End AddStep.

(** The storage before anything was recorded, with no failure to come. *)
Definition emptyWorld : World := {| stored := None; faults := []; calls := [] |}.

(** The stored log, empty when the key is absent
    ([result[STORAGE_KEY] || []]). *)
Definition current (w : World) : list Step :=
  match stored w with Some steps => steps | None => [] end.

(** The length of the stored log. *)
Definition storedLength (w : World) : nat := List.length (current w).

(** The writes among the storage calls. *)
Definition isSet (c : StorageCall) : bool :=
  match c with StorageSet _ => true | _ => false end.

Definition writes (w : World) : list StorageCall := filter isSet (calls w).

End Store.

(** ** Redaction in the content script ([getSafeText]) *)

Module Redactor.

Import JsString.
Local Open Scope string_scope.

(** The properties of a DOM element the redactor reads; an absent
    property is the empty string, which [||] treats the same. *)
Record Element := {
  name : string;
  id : string;
  placeholder : string;
  type : string;
  tagName : string;
  value : string;
  innerText : string;
  textContent : string;
  alt : string;
  title : string
}.

(** The alternatives of the regular expression [SENSITIVE_PATTERNS]. *)
Definition SENSITIVE_KEYWORDS : list string :=
  ["password"; "pwd"; "secret"; "token"; "key"; "ssn"; "creditcard";
   "credit-card"; "cardnumber"; "card-number"].

(** [SENSITIVE_PATTERNS.test(s)]: the flag [i] makes the search case
    insensitive; the alternatives are plain ASCII words, found as
    substrings. *)
Definition SENSITIVE_PATTERNS (s : string) : bool :=
  existsb (includes (toLowerCase s)) SENSITIVE_KEYWORDS.

Definition MAX_INPUT_LENGTH : nat := 100.

Definition REDACTED : string := "[REDACTED]".

Definition isFormTag (tag : string) : bool :=
  existsb (String.eqb tag) ["INPUT"; "SELECT"; "TEXTAREA"].

(** The local [name] of [getSafeText]: the identifier the pattern is
    tested on. *)
Definition fieldIdentifier (element : Element) : string :=
  first_truthy [name element; id element; placeholder element; type element]
               EmptyString.

(** [getSafeText(element, value)]; [element] is [None] for [null], and a
    [null] or missing [value] is the empty string. The parameter [value]
    and the local [name] are primed here, next to the properties of the
    same names. *)
Definition getSafeText (element : option Element) (value' : string) : string :=
  match element with
  | None => EmptyString
  | Some element =>
    let text :=
      first_truthy [value'; value element; innerText element; textContent element;
                    alt element; title element] EmptyString in
    let name' := fieldIdentifier element in
    if SENSITIVE_PATTERNS name' then REDACTED
    else if truthy (tagName element) && isFormTag (tagName element) then
      let identifier :=
        first_truthy [placeholder element; name element; id element; type element]
                     "field" in
      if truthy value' && truthy (trim value')
      then identifier ++ ": " ++
           (if (MAX_INPUT_LENGTH <? String.length value')%nat
            then slice0 77 value' ++ "..."
            else value')
      else identifier
    else if (MAX_INPUT_LENGTH <? String.length text)%nat
    then slice0 97 text ++ "..."
    else slice0 200 (trim text)
  end.

End Redactor.

(** ** Rendering of the step list (popup [renderSteps], and the steps
    section of [generateRTFReport] in [background.js]) *)

Module Render.

Import JsString Store.
Local Open Scope string_scope.

(** [a || b] where [a] is a string or [undefined]. *)
Definition opt_or (a : option string) (b : string) : string :=
  match a with
  | Some s => or_else s b
  | None => b
  end.

(** Array elements with the [index + 1] the renderers print. *)
Definition numbered {A : Type} (l : list A) : list (nat * A) :=
  combine (seq 1 (List.length l)) l.

(** The first [filter] of [renderSteps]. *)
Definition isUiStep (step : Step) : bool :=
  negb (strict_eq (type step) (Some "console")) &&
  negb (strict_eq (type step) (Some "performance")) &&
  negb (strict_eq (metaAction step) (Some "focus")) &&
  negb (strict_eq (metaAction step) (Some "blur")).

(** The callback of the text filter; [None] is the [TypeError] of
    [toLowerCase] on an [undefined] property. *)
Definition matchesFilter (filter : string) (step : Step) : option bool :=
  let f := toLowerCase filter in
  match url step with
  | None => None
  | Some u =>
    if includes (toLowerCase u) f then Some true
    else
      match text step with
      | None => None
      | Some t =>
        if includes (toLowerCase t) f then Some true
        else
          match selector step with
          | None => None
          | Some s =>
            if includes (toLowerCase s) f then Some true
            else Some (includes (toLowerCase (opt_or (metaAction step) EmptyString)) f)
          end
      end
  end.

Fixpoint filterByText (filter : string) (steps : list Step) : option (list Step) :=
  match steps with
  | [] => Some []
  | step :: rest =>
      match matchesFilter filter step with
      | None => None
      | Some keep =>
          match filterByText filter rest with
          | None => None
          | Some rest' => Some (if keep then step :: rest' else rest')
          end
      end
  end.

(** [filteredSteps] of [renderSteps(steps, filter)]: the steps the popup
    shows, in the order it shows them. *)
Definition filteredSteps (steps : list Step) (filter : string) : option (list Step) :=
  let filteredSteps := List.filter isUiStep steps in
  if truthy filter then filterByText filter filteredSteps else Some filteredSteps.

Section Popup.

Variable formatStepDirectly : Step -> string.

(** [renderSteps]: the numbered descriptions put in the steps container
    (none for the no-steps notice); [None] when it throws. *)
Definition renderSteps (steps : list Step) (filter : string)
  : option (list (nat * string)) :=
  match filteredSteps steps filter with
  | None => None
  | Some shown => Some (numbered (map formatStepDirectly shown))
  end.

End Popup.

(** [uiSteps] of [generateRTFReport]. *)
Definition uiSteps (steps : list Step) : list Step :=
  List.filter
    (fun step => negb (strict_eq (type step) (Some "console")) &&
                 negb (strict_eq (type step) (Some "performance")))
    steps.

(** The [switch] of the steps section; [None] for a screenshot step,
    which the [forEach] callback skips. *)
Definition stepDescription (step : Step) : option string :=
  let action := opt_or (metaAction step) (opt_or (type step) "action") in
  let target := opt_or (text step) (opt_or (selector step) "element") in
  let entered := opt_or (metaValue step) (opt_or (text step) EmptyString) in
  if String.eqb action "click" then Some ("User clicked on " ++ target ++ ".")
  else if String.eqb action "input"
  then Some ("User entered " ++ dquote ++ entered ++ dquote ++ " in " ++ target ++ ".")
  else if String.eqb action "select"
  then Some ("User selected " ++ dquote ++ entered ++ dquote ++ " from " ++ target ++ ".")
  else if String.eqb action "focus" then Some ("User focused on " ++ target ++ ".")
  else if String.eqb action "blur" then Some ("User left " ++ target ++ ".")
  else if String.eqb action "submit" then Some "User submitted the form."
  else if String.eqb action "navigation"
  then Some ("User performed navigation on " ++ target ++ ".")
  else if String.eqb action "keypress"
  then Some ("User pressed " ++ opt_or (text step) "a key" ++ ".")
  else if String.eqb action "change"
  then Some ("User performed change on " ++ target ++ ".")
  else if String.eqb action "toggle" then Some ("User toggled " ++ target ++ ".")
  else if String.eqb action "screenshot" then None
  else Some ("User performed " ++ action ++ " on " ++ target ++ ".").

(** The steps that get a line in the RTF report, each with its number. *)
Definition rtfSteps (steps : list Step) : list (nat * Step) :=
  List.filter (fun p => match stepDescription (snd p) with Some _ => true | None => false end)
              (numbered (uiSteps steps)).

(** The numbered lines of the steps section of [generateRTFReport]. *)
Definition rtfStepLines (steps : list Step) : list (nat * string) :=
  flat_map
    (fun p => match stepDescription (snd p) with
              | Some d => [(fst p, d)]
              | None => []
              end)
    (numbered (uiSteps steps)).

(** The steps the popup shows, as a filter of the array. *)
Definition popupKeeps (filter : string) (s : Step) : bool :=
  isUiStep s &&
  (negb (truthy filter) ||
   match matchesFilter filter s with Some keep => keep | None => false end).

(** The steps the RTF report lists, as a filter of the array. *)
Definition rtfKeeps (s : Step) : bool :=
  negb (strict_eq (type s) (Some "console"%string)) &&
  negb (strict_eq (type s) (Some "performance"%string)) &&
  match stepDescription s with Some _ => true | None => false end.

(** Timestamps in ascending order. *)
Fixpoint sortedByTime (steps : list Step) : bool :=
  match steps with
  | [] => true
  | a :: rest =>
      forallb (fun b => (time a <=? time b)%Z) rest && sortedByTime rest
  end.

End Render.

(** ** The specification's wording, for comparison with the code *)

Module Spec.

Import JsString Store.
Local Open Scope Z_scope.

(** "time delta <= 100ms AND same target descriptor AND same display text
    AND same kind AND same metadata value" *)
Definition exactDuplicate (existing newStep : Step) : Prop :=
  Z.abs (time existing - time newStep) <= 100 /\
  selector existing = selector newStep /\
  text existing = text newStep /\
  metaAction existing = metaAction newStep /\
  metaValue existing = metaValue newStep.

(** "time delta <= 25ms AND same target descriptor AND both are click kind" *)
Definition rapidClick (existing newStep : Step) : Prop :=
  Z.abs (time existing - time newStep) <= 25 /\
  selector existing = selector newStep /\
  metaAction existing = Some "click"%string /\
  metaAction newStep = Some "click"%string.

(** "an existing Step in the log satisfies one of" the two rules. *)
Definition matchesExisting (log : list Step) (newStep : Step) : Prop :=
  exists existing, In existing log /\
    (exactDuplicate existing newStep \/ rapidClick existing newStep).

(** "Form submissions and screenshot Steps": a submit action, or a step of
    type screenshot (whose action the code sets to [screenshot] or
    [screenshot-custom], or leaves out). *)
Definition exemptKind (s : Step) : Prop :=
  metaAction s = Some "submit"%string \/
  (type s = Some "screenshot"%string /\ metaAction s <> Some "click"%string).

(** "pairwise non-duplicate Steps": no step of the sequence is a
    duplicate, by the rule of [addStep], of one before it. *)
Fixpoint pairwiseDistinct (steps : list Step) : bool :=
  match steps with
  | [] => true
  | a :: rest =>
      forallb (fun b => negb (duplicateOf b a)) rest && pairwiseDistinct rest
  end.

(** "attempt one remediation (drop a fraction of oldest entries) and retry
    once": after the failed write of [steps], a second write of what is
    left of [steps] without some, but not all, of its oldest entries. *)
Definition quotaRemediation (steps : list Step) (w : World) : Prop :=
  exists k, (0 < k < List.length steps)%nat /\
    writes w = [StorageSet steps; StorageSet (skipn k steps)].

(** "its output never contains the raw value as a substring" *)
Definition hidesValue (output rawValue : string) : Prop :=
  includes output rawValue = false.

(** "trims surrounding whitespace" *)
Definition trimmed (output : string) : Prop := trim output = output.

(** "sorting for display is always done explicitly by timestamp": what is
    displayed is in ascending order of [time]. *)
Definition displayedByTime (shown : list Step) : Prop :=
  Render.sortedByTime shown = true.

End Spec.

(** ** Screenshot lists (the gallery of [background.js], and
    [deduplicateScreenshots] of the popup and of the Word report
    generator) *)

Module Shots.

Import JsString.
Local Open Scope string_scope.

(** The properties of a screenshot object that these functions read. *)
Record Screenshot := {
  dataURL : option string;
  dataUrl : option string;
  timestamp : option Z;
  description : option string;
  filename : option string;
  type : option string
}.

(** [l'] is [l] with some of its elements left out, the others in order. *)
Inductive Subsequence {A : Type} : list A -> list A -> Prop :=
| Subsequence_nil : Subsequence [] []
| Subsequence_skip (a : A) (l' l : list A) :
    Subsequence l' l -> Subsequence l' (a :: l)
| Subsequence_keep (a : A) (l' l : list A) :
    Subsequence l' l -> Subsequence (a :: l') (a :: l).

(** [a || b] where [a] is a string or [undefined] and [b] a string. *)
Definition orString (a : option string) (b : string) : string :=
  match a with
  | Some s => or_else s b
  | None => b
  end.

(** A timestamp in a template literal. *)
Definition showTimestamp (t : option Z) : string :=
  match t with
  | Some z => Crop.show z
  | None => "undefined"
  end.


(** The identifier of [deduplicateScreenshots] in the popup. *)
Definition identifier (screenshot : Screenshot) : string :=
  orString (dataURL screenshot)
    (orString (dataUrl screenshot)
       (showTimestamp (timestamp screenshot) ++ "_" ++
        orString (description screenshot) (orString (filename screenshot) EmptyString))).

(** The [forEach] of [deduplicateScreenshots], with the set [seen]. *)
Fixpoint dedupLoop (seen : list string) (screenshots : list Screenshot)
  : list Screenshot :=
  match screenshots with
  | [] => []
  | screenshot :: rest =>
      if existsb (String.eqb (identifier screenshot)) seen
      then dedupLoop seen rest
      else screenshot :: dedupLoop (identifier screenshot :: seen) rest
  end.

(** [deduplicateScreenshots] of the popup; [None] is [null] or
    [undefined]. *)
Definition deduplicateScreenshots (screenshots : option (list Screenshot))
  : list Screenshot :=
  match screenshots with
  | None => []
  | Some l => dedupLoop [] l
  end.

(** [deduplicateScreenshots] of the Word report generator. *)

(** [screenshot.dataURL || screenshot.dataUrl || ''] *)
Definition imageOf (screenshot : Screenshot) : string :=
  orString (dataURL screenshot) (orString (dataUrl screenshot) EmptyString).

Definition reportIdentifier (screenshot : Screenshot) : string :=
  or_else (imageOf screenshot)
    (showTimestamp (timestamp screenshot) ++ "_" ++
     orString (description screenshot) (orString (filename screenshot) EmptyString)).

(** More than 5MB of data URL. *)
Definition tooLarge (screenshot : Screenshot) : bool :=
  (5 * 1024 * 1024 <? Z.of_nat (String.length (imageOf screenshot)))%Z.

(** The limit to 20: [Math.floor(20 * 0.6)] = 12 first and 8 last. *)
Definition limitScreenshots (screenshots : list Screenshot) : list Screenshot :=
  let maxScreenshots := 20%nat in
  if (maxScreenshots <? List.length screenshots)%nat
  then
    let keepFirst := 12%nat in
    let keepLast := (maxScreenshots - keepFirst)%nat in
    (firstn keepFirst screenshots ++
     skipn (List.length screenshots - keepLast) screenshots)%list
  else screenshots.

Fixpoint reportDedupLoop (seen : list string) (screenshots : list Screenshot)
  : list Screenshot :=
  match screenshots with
  | [] => []
  | screenshot :: rest =>
      if tooLarge screenshot then reportDedupLoop seen rest
      else if existsb (String.eqb (reportIdentifier screenshot)) seen
      then reportDedupLoop seen rest
      else screenshot :: reportDedupLoop (reportIdentifier screenshot :: seen) rest
  end.

Definition reportDeduplicateScreenshots (screenshots : option (list Screenshot))
  : list Screenshot :=
  match screenshots with
  | None => []
  | Some l => reportDedupLoop [] (limitScreenshots l)
  end.

(** *** [categorizeScreenshots] *)

(** A value of the object [types]: a number, or the string that [+ 1]
    makes of a member that [types] inherits from [Object.prototype]. *)
Inductive TypeValue :=
| Count (n : nat)
| Text (s : string).

(** The functions that every plain object inherits from
    [Object.prototype]; [__proto__] is inherited too, as an accessor. *)
Definition inheritedFunctions : list string :=
  ["constructor"; "hasOwnProperty"; "isPrototypeOf"; "propertyIsEnumerable";
   "toLocaleString"; "toString"; "valueOf"; "__defineGetter__";
   "__defineSetter__"; "__lookupGetter__"; "__lookupSetter__"].

Definition inheritedFunction (key : string) : bool :=
  existsb (String.eqb key) inheritedFunctions.

Definition inherited (key : string) : bool :=
  String.eqb key "__proto__" || inheritedFunction key.

(** [screenshot.type || 'unknown']. *)
Definition typeKey (screenshot : Screenshot) : string :=
  orString (type screenshot) "unknown".

Section Categorize.

(** [String(f)] for the function that [Object.prototype] has under a
    name, which the platform decides. *)
Variable functionSource : string -> string.

(** [(types[key] || 0) + 1] where [types] has no property [key] of its
    own: 1, or the source of the inherited function followed by [1]. *)
Definition firstValue (key : string) : TypeValue :=
  if inheritedFunction key
  then Text (functionSource key ++ "1")
  else Count 1.

(** [(v || 0) + 1] for a value that [types] holds. *)
Definition plusOne (v : TypeValue) : TypeValue :=
  match v with
  | Count n => Count (S n)
  | Text s => if truthy s then Text (s ++ "1") else Count 1
  end.

(** [types[key] = (types[key] || 0) + 1] on the own properties of [types],
    in the order they were added. *)
Fixpoint increment (key : string) (types : list (string * TypeValue))
  : list (string * TypeValue) :=
  match types with
  | [] => [(key, firstValue key)]
  | (k, v) :: rest =>
      if String.eqb k key then (k, plusOne v) :: rest else (k, v) :: increment key rest
  end.

(** The same for any key: the setter of [__proto__] ignores a value that
    is neither an object nor [null], here the string [[object Object]1],
    and leaves [types] as it is. *)
Definition assign (key : string) (types : list (string * TypeValue))
  : list (string * TypeValue) :=
  if String.eqb key "__proto__" then types else increment key types.

(** [categorizeScreenshots]: the own properties of the object it returns,
    in the order they were first assigned. JavaScript lists keys that are
    array indices ahead of the others; [lookup] and [totalCount] do not
    depend on the order. *)
Definition categorizeScreenshots (screenshots : list Screenshot)
  : list (string * TypeValue) :=
  fold_left (fun types screenshot => assign (typeKey screenshot) types)
            screenshots [].

End Categorize.

(** The own property [key] of [types]. *)
Fixpoint lookup (key : string) (types : list (string * TypeValue)) : option TypeValue :=
  match types with
  | [] => None
  | (k, v) :: rest => if String.eqb k key then Some v else lookup key rest
  end.

(** The number a value is, 0 for a string. *)
Definition countValue (v : TypeValue) : nat :=
  match v with Count n => n | Text _ => 0 end.

(** The number under [key], 0 when [types] has none there. *)
Definition countOf (key : string) (types : list (string * TypeValue)) : nat :=
  match lookup key types with Some v => countValue v | None => 0 end.

(** The sum of the numbers of [types]. *)
Definition totalCount (types : list (string * TypeValue)) : nat :=
  list_sum (map (fun entry => countValue (snd entry)) types).

(** What [increment] keeps true of an entry of [types]: its key is not
    [__proto__], and its value is a number, unless the key is the name of
    an inherited function, which has a string that is not empty. *)
Definition valueFits (entry : string * TypeValue) : bool :=
  negb (String.eqb (fst entry) "__proto__") &&
  match snd entry with
  | Count _ => negb (inheritedFunction (fst entry))
  | Text s => inheritedFunction (fst entry) && truthy s
  end.

End Shots.

(** ** The popup: statistics and wording *)

Module Popup.

Import JsString Store.
Local Open Scope nat_scope.
Local Open Scope string_scope.

(** The counters of [calculateStats]. *)
Record Stats := {
  total : nat;
  error : nat;
  warning : nat;
  success : nat;
  form : nat;
  click : nat;
  navigation : nat
}.

(** The six counters by category, together. *)
Definition counted (stats : Stats) : nat :=
  error stats + warning stats + success stats + form stats + click stats +
  navigation stats.

(** The callback of the [forEach] of [calculateStats]. *)
Definition countStep (stats : Stats) (step : Step) : Stats :=
  let action := Render.opt_or (metaAction step) EmptyString in
  let bump (e w s f c n : nat) :=
    {| total := total stats; error := error stats + e; warning := warning stats + w;
       success := success stats + s; form := form stats + f;
       click := click stats + c; navigation := navigation stats + n |} in
  if String.eqb action "click" then bump 0 0 0 0 1 0
  else if String.eqb action "navigation" then bump 0 0 0 0 0 1
  else if existsb (String.eqb action) ["input"; "select"; "submit"] then bump 0 0 0 1 0 0
  else if String.eqb action "error" then bump 1 0 0 0 0 0
  else if String.eqb action "warning" then bump 0 1 0 0 0 0
  else if String.eqb action "success" then bump 0 0 1 0 0 0
  else stats.

(** [calculateStats]. *)
Definition calculateStats (steps : list Step) : Stats :=
  let uiSteps := List.filter Render.isUiStep steps in
  fold_left countStep uiSteps
    {| total := List.length uiSteps; error := 0; warning := 0; success := 0;
       form := 0; click := 0; navigation := 0 |}.

(** [s.startsWith(p)] and [s.charAt(0)]. *)
Definition startsWith (s p : string) : bool := String.prefix p s.

Definition charAt0 (s : string) : string :=
  match s with
  | EmptyString => EmptyString
  | String c _ => String c EmptyString
  end.

(** [addProperArticle]; a [null] or missing text is the empty string. *)
Definition addProperArticle (text : string) : string :=
  if negb (truthy text) || String.eqb (trim text) EmptyString then "the element"
  else
    let trimmed := trim text in
    let lowerText := toLowerCase trimmed in
    if startsWith lowerText "the " || startsWith lowerText "a " ||
       startsWith lowerText "an "
    then trimmed
    else if existsb (includes lowerText)
              ["field"; "button"; "form"; "menu"; "page"; "section"; "panel";
               "tab"; "header"; "footer"; "sidebar"; "navbar"]
    then "the " ++ trimmed
    else if existsb (String.eqb (charAt0 lowerText)) ["a"; "e"; "i"; "o"; "u"]
    then "an " ++ trimmed
    else "a " ++ trimmed.

(** The result begins with an article, whatever the case of its letters. *)
Definition beginsWithArticle (s : string) : bool :=
  startsWith (toLowerCase s) "the " || startsWith (toLowerCase s) "a " ||
  startsWith (toLowerCase s) "an ".

End Popup.

(** ** More of the reports *)

Module Report.

Import JsString Store.
Local Open Scope string_scope.

(** The [action] that the [switch] of the steps section of
    [generateRTFReport] looks at. *)
Definition rtfAction (step : Step) : string :=
  Render.opt_or (metaAction step) (Render.opt_or (type step) "action").

(** The step is a focus or a blur. *)
Definition focusOrBlur (step : Step) : bool :=
  strict_eq (metaAction step) (Some "focus") ||
  strict_eq (metaAction step) (Some "blur").

End Report.

(** ** Selectors in the content script ([getCssSelector]) *)

Module Dom.

Import JsString.
Local Open Scope string_scope.


(** [s.split(' ')]. *)
Fixpoint split (s : string) : list string :=
  match s with
  | EmptyString => [EmptyString]
  | String c r =>
      if Ascii.eqb c " "
      then EmptyString :: split r
      else
        match split r with
        | head :: tail => String c head :: tail
        | [] => [String c EmptyString]
        end
  end.

(** [l.join(sep)]. *)
Fixpoint join (sep : string) (l : list string) : string :=
  match l with
  | [] => EmptyString
  | [a] => a
  | a :: rest => a ++ sep ++ join sep rest
  end.






End Dom.

(** ** The Word report generator: [optimizeBugDataForMemory] *)

Module BugReport.

Import JsString.
Local Open Scope string_scope.

(** The fields of the bug data that [optimizeBugDataForMemory] looks at;
    [None] is a missing list, the empty string a missing text. *)
Record BugData := {
  screenshots : option (list Shots.Screenshot);
  summary : string;
  actualResult : string;
  stepsToReproduce : option (list string)
}.

(** [s.substring(0, n) + '... [truncated]'] over [n] characters. *)
Definition truncateText (n : nat) (s : string) : string :=
  if truthy s && (n <? String.length s)%nat
  then slice0 n s ++ "... [truncated]"
  else s.

(** [l.slice(0, n)] over [n] entries. *)
Definition limitList {A : Type} (n : nat) (l : option (list A)) : option (list A) :=
  match l with
  | Some l' => if (n <? List.length l')%nat then Some (firstn n l') else Some l'
  | None => None
  end.

Definition summaryLimit : nat := Z.to_nat 5000.
Definition actualResultLimit : nat := Z.to_nat 10000.

(** [optimizeBugDataForMemory]. *)
Definition optimizeBugDataForMemory (bugData : BugData) : BugData :=
  {| screenshots := limitList 10 (screenshots bugData);
     summary := truncateText summaryLimit (summary bugData);
     actualResult := truncateText actualResultLimit (actualResult bugData);
     stepsToReproduce := limitList 20 (stepsToReproduce bugData) |}.

(** The length of a list that may be missing. *)
Definition lengthOf {A : Type} (l : option (list A)) : nat :=
  match l with Some l' => List.length l' | None => 0%nat end.

End BugReport.

(** ** The area selection of the content script ([captureSelectedArea]) *)

Module Selection.

Import Codec.
Local Open Scope Z_scope.

(** [selectionStart] and [selectionEnd]. *)
Record Point := { px : Z; py : Z }.

(** The area that [captureSelectedArea] sends with
    [capture-screenshot-custom]; [None] when it shows a toast and sends
    nothing. *)
Definition captureSelectedArea (selectionStart selectionEnd : Point) : option Area :=
  let left := Z.min (px selectionStart) (px selectionEnd) in
  let top := Z.min (py selectionStart) (py selectionEnd) in
  let width := Z.abs (px selectionEnd - px selectionStart) in
  let height := Z.abs (py selectionEnd - py selectionStart) in
  if (width <? 10) || (height <? 10) then None
  else if (5000 <? width) || (5000 <? height) then None
  else Some {| x := left; y := top; width := width; height := height |}.

End Selection.

(** ** The recording state ([update-recording-state] and
    [get-persistent-state] of [background.js]) *)

Module Recording.

(** A JavaScript value as a message or the storage can hold it. *)
Inductive JsValue :=
| JsUndefined
| JsNull
| JsBool (b : bool)
| JsNumber (z : Z)
| JsString (s : string).

Definition truthyValue (v : JsValue) : bool :=
  match v with
  | JsUndefined | JsNull => false
  | JsBool b => b
  | JsNumber z => negb (z =? 0)%Z
  | JsString s => JsString.truthy s
  end.

(** [v === true] and [v || null]. *)
Definition isTrue (v : JsValue) : bool :=
  match v with JsBool true => true | _ => false end.

Definition orNull (v : JsValue) : JsValue := if truthyValue v then v else JsNull.

(** The three keys of the recording state in [chrome.storage.local], and
    the fields of the same names of a message and of [persistentState]. *)
Record State := {
  isRecording : JsValue;
  sessionId : JsValue;
  startTime : JsValue
}.

(** [update-recording-state]: what is written to the storage (and to
    [persistentState]). *)
Definition updateRecordingState (message : State) : State :=
  {| isRecording := JsBool (isTrue (isRecording message));
     sessionId := orNull (sessionId message);
     startTime := orNull (startTime message) |}.

(** [get-persistent-state]: the [state] of the answer, read from the
    storage. *)
Definition getPersistentState (storage : State) : State :=
  {| isRecording := JsBool (isTrue (isRecording storage));
     sessionId := orNull (sessionId storage);
     startTime := orNull (startTime storage) |}.

(** The state has a boolean flag and each of the other two fields is
    [null] or truthy. *)
Definition normalized (s : State) : Prop :=
  (exists b, isRecording s = JsBool b) /\
  (sessionId s = JsNull \/ truthyValue (sessionId s) = true) /\
  (startTime s = JsNull \/ truthyValue (startTime s) = true).

End Recording.

(** ** The Word report generator: [calculateSessionDuration] *)

Module Duration.

Import JsString Shots.
Local Open Scope string_scope.
Local Open Scope Z_scope.

(** [.sort((a, b) => a - b)] on numbers: ascending order. *)
Fixpoint insert (t : Z) (sorted : list Z) : list Z :=
  match sorted with
  | [] => [t]
  | a :: rest => if t <=? a then t :: sorted else a :: insert t rest
  end.

Definition sortNumbers (l : list Z) : list Z := fold_right insert [] l.

(** [.map(s => s.timestamp).filter(t => t && !isNaN(t))]: the timestamps
    that are there and are not 0. *)
Fixpoint usableTimestamps (screenshots : list Screenshot) : list Z :=
  match screenshots with
  | [] => []
  | s :: rest =>
      match timestamp s with
      | Some t => if t =? 0 then usableTimestamps rest else t :: usableTimestamps rest
      | None => usableTimestamps rest
      end
  end.

(** [durationMs], when there is one. *)
Definition sessionDurationMs (screenshots : option (list Screenshot)) : option Z :=
  match screenshots with
  | None => None
  | Some l =>
      if (List.length l <? 2)%nat then None
      else
        let timestamps := sortNumbers (usableTimestamps l) in
        if (List.length timestamps <? 2)%nat then None
        else Some (last timestamps 0 - hd 0 timestamps)
  end.

(** The minutes and seconds that are printed. *)
Definition minutesOf (durationMs : Z) : Z := durationMs / 60000.
Definition secondsOf (durationMs : Z) : Z := Z.rem durationMs 60000 / 1000.

(** [calculateSessionDuration]. *)
Definition calculateSessionDuration (screenshots : option (list Screenshot)) : string :=
  match sessionDurationMs screenshots with
  | None => "Unknown"
  | Some durationMs =>
      if 0 <? minutesOf durationMs
      then Crop.show (minutesOf durationMs) ++ "m " ++
           Crop.show (secondsOf durationMs) ++ "s"
      else Crop.show (secondsOf durationMs) ++ "s"
  end.

End Duration.

(** ** Recording in the content script ([recordStep], the console capture
    and the debounced [input] listener of [word-report-generator.js]) *)

Module Content.

Import JsString Store.
Local Open Scope string_scope.

(** [window.bcState.recording] and [window.bcState.steps], and the
    [store-step] messages sent to the background, oldest first. *)
Record Page := {
  recording : bool;
  steps : list Step;
  sent : list Step
}.

(** The locals of the timer callback of the [input] listener. [details]
    is [meta.details] of the step it builds. *)
Record InputCapture := {
  fieldName : string;
  inputValue : string;
  displayValue : string;
  details : string
}.

(** [fieldName] of the [input] listener. *)
Definition inputFieldName (element : Redactor.Element) : string :=
  let name' :=
    first_truthy [Redactor.placeholder element; Redactor.name element;
                  Redactor.id element; Redactor.type element]
                 (Redactor.tagName element) in
  or_else name' "field".

Definition inputCapture (element : Redactor.Element) : InputCapture :=
  let fieldName := inputFieldName element in
  let inputValue := trim (Redactor.value element) in
  let isSensitive := Redactor.SENSITIVE_PATTERNS (toLowerCase fieldName) in
  let displayValue := if isSensitive then Redactor.REDACTED else inputValue in
  {| fieldName := fieldName;
     inputValue := inputValue;
     displayValue := displayValue;
     details := "Entered " ++ dquote ++ displayValue ++ dquote ++ " in " ++ fieldName |}.

Section WithPage.

(** [Date.now()], [location.href], and the address [getActualTabUrl]
    resolves to. *)
Variable now : Z.
Variable href : string.
Variable actualUrl : string.

(** The end of [recordStep] and of [recordConsoleStep]: the step is pushed
    on [window.bcState.steps] and sent to the background in a [store-step]
    message. *)
Definition push (step : Step) (page : Page) : Page :=
  {| recording := recording page;
     steps := steps page ++ [step];
     sent := sent page ++ [step] |}.

(** [recordConsoleStep(level, message)]; [meta.level] and
    [meta.timestamp] have no field in [Meta]. *)
Definition recordConsoleStep (level message : string) : Page -> Page :=
  push {| type := Some "console"; time := now; url := Some href;
          text := Some (slice0 500 message); selector := Some "console";
          meta := Some {| action := Some "console"; value := None |};
          dataURL := None |}.

(** [console.log] as [setupConsoleCapture] replaces it when the script
    loads: after the original [console.log], the arguments joined by a
    space are recorded while recording is on. *)
Definition consoleLog (args : list string) (page : Page) : Page :=
  if recording page then recordConsoleStep "log" (Dom.join " " args) page
  else page.

(** [recordStep(step)] with a step object: nothing while recording is
    off; otherwise the step, with the address of the tab, is pushed and
    sent. *)
Definition recordStep (step : Step) (page : Page) : Page :=
  if negb (recording page) then page
  else
    push {| type := type step; time := time step; url := Some actualUrl;
            text := text step; selector := selector step;
            meta := meta step; dataURL := dataURL step |} page.

(** The step the timer callback builds; [selector'] is
    [getCssSelector(element)]. *)
Definition inputStep (selector' : string) (capture : InputCapture) : Step :=
  {| type := Some "step"; time := now; url := Some actualUrl;
     text := Some (fieldName capture); selector := Some selector';
     meta := Some {| action := Some "input"; value := Some (displayValue capture) |};
     dataURL := None |}.

(** The callback the [input] listener schedules, 800ms after the last
    keystroke: it logs the value it read, then builds the step and hands
    it to [recordStep]. *)
Definition inputTimer (element : Redactor.Element) (selector' : string)
    (page : Page) : Page :=
  if truthy (Redactor.value element) &&
     negb (String.eqb (trim (Redactor.value element)) EmptyString)
  then
    let capture := inputCapture element in
    let page :=
      consoleLog ["Bug Capturer: Captured input value:"; inputValue capture] page in
    recordStep (inputStep selector' capture) page
  else page.

(** The [input] listener; [ignored] is
    [e.target.closest('[data-bc-ignore]')] being an element. *)
Definition inputListener (ignored : bool) (element : Redactor.Element)
    (selector' : string) (page : Page) : Page :=
  if ignored then page
  else if negb (existsb (String.eqb (toLowerCase (Redactor.tagName element)))
                        ["input"; "textarea"])
  then page
  else inputTimer element selector' page.

End WithPage.

End Content.

(** ** Concrete inputs *)

Module Examples.

Import JsString Store.
Local Open Scope string_scope.
Local Open Scope Z_scope.

(** A step as [recordStep(type, element, details)] builds it. *)
Definition recorded (action' : string) (selector' text' : string) (time' : Z) : Step :=
  {| type := Some "step"; time := time'; url := Some "https://example.test/";
     text := Some text'; selector := Some selector';
     meta := Some {| action := Some action'; value := None |};
     dataURL := None |}.

(** A line of console output, as the log holds it. *)
Definition consoleLine (text' : string) (time' : Z) : Step :=
  {| type := Some "console"; time := time'; url := Some "https://example.test/";
     text := Some text'; selector := Some "console";
     meta := Some {| action := Some "log"; value := None |};
     dataURL := None |}.

(** A log of 1000 steps in chronological order: a click on [#login] at
    time 0, then a burst of 999 console lines, twenty to the millisecond. *)
Definition fullLog : list Step :=
  recorded "click" "#login" "Login" 0 ::
  map (fun i => consoleLine ("line " ++ Crop.show (Z.of_nat i)) (Z.of_nat i / 20))
      (seq 1 999).

(** The click on [#login] again, 50ms after the first. *)
Definition repeatedLogin : Step := recorded "click" "#login" "Login" 50.

(** Two submissions of the same form, 50ms apart. *)
Definition firstSubmit : Step := recorded "submit" "form.login" "Submitted the form" 0.
Definition secondSubmit : Step := recorded "submit" "form.login" "Submitted the form" 50.

(** Two screenshot steps as the [capture-screenshot] command builds them,
    40ms apart. *)
Definition screenshotAt (time' : Z) : Step :=
  {| type := Some "screenshot"; time := time'; url := Some "https://example.test/";
     text := None; selector := None;
     meta := Some {| action := Some "screenshot"; value := None |};
     dataURL := None |}.

(** A serialized length for the examples: the brackets, and 512
    characters for each step. *)
Definition estimatedLength (steps : list Step) : Z :=
  2 + 512 * Z.of_nat (List.length steps).

(** A platform on which every codec call succeeds, for a 100x100 image. *)
Definition image100 : Codec.ImageBitmap :=
  {| Codec.imageWidth := 100; Codec.imageHeight := 100 |}.

Definition okPlatform : Codec.Platform :=
  {| Codec.usedJSHeapSize := None;
     Codec.fetch := fun _ =>
       Resolved {| Codec.responseOk := true; Codec.status := 200;
                   Codec.statusText := "OK";
                   Codec.blob := Resolved {| Codec.size := 4; Codec.bytes := "png." |} |};
     Codec.createImageBitmap := fun _ => Resolved image100;
     Codec.getContext2d := fun _ _ => Resolved true;
     Codec.drawImage := fun _ => Resolved tt;
     Codec.convertToBlob := fun _ _ _ =>
       Resolved {| Codec.size := 4; Codec.bytes := "jpeg" |};
     Codec.readAsDataURL := fun b => Resolved ("data:image/jpeg;base64," ++ Codec.bytes b);
     Codec.scaleToPixels := fun _ w h => (w, h);
     Codec.scaleToBox := fun _ _ w h => (w, h) |}.

(** The same platform, but the [FileReader] fails on the compressed blob. *)
Definition readerFails : Codec.Platform :=
  {| Codec.usedJSHeapSize := None;
     Codec.fetch := Codec.fetch okPlatform;
     Codec.createImageBitmap := Codec.createImageBitmap okPlatform;
     Codec.getContext2d := Codec.getContext2d okPlatform;
     Codec.drawImage := Codec.drawImage okPlatform;
     Codec.convertToBlob := Codec.convertToBlob okPlatform;
     Codec.readAsDataURL := fun _ => Rejected "NotReadableError";
     Codec.scaleToPixels := Codec.scaleToPixels okPlatform;
     Codec.scaleToBox := Codec.scaleToBox okPlatform |}.

Definition pngDataURL : string := "data:image/png;base64,iVBORw0KGgo=".

(** 1001 clicks on 1001 different buttons, one every second. *)
Definition clicks1001 : list Step :=
  map (fun i => recorded "click" ("#button-" ++ Crop.show (Z.of_nat i)) "Button"
                         (1000 * Z.of_nat i))
      (seq 1 1001).

(** A log of three steps to write, on a storage that holds the first two
    and rejects the next call for lack of quota. *)
Definition threeSteps : list Step :=
  [recorded "click" "#login" "Login" 0;
   recorded "click" "#menu" "Menu" 2000;
   recorded "click" "#save" "Save" 4000].

Definition quotaWorld : World :=
  {| stored := Some (firstn 2 threeSteps);
     faults := [Some "QUOTA_EXCEEDED: storage quota exceeded"];
     calls := [] |}.

(** A password field of a login form. *)
Definition passwordField : Redactor.Element :=
  {| Redactor.name := "user_password"; Redactor.id := "pw";
     Redactor.placeholder := "Password"; Redactor.type := "password";
     Redactor.tagName := "INPUT"; Redactor.value := "hunter2";
     Redactor.innerText := EmptyString; Redactor.textContent := EmptyString;
     Redactor.alt := EmptyString; Redactor.title := EmptyString |}.

(** A paragraph with the given text. *)
Definition paragraph (text' : string) : Redactor.Element :=
  {| Redactor.name := EmptyString; Redactor.id := "intro";
     Redactor.placeholder := EmptyString; Redactor.type := EmptyString;
     Redactor.tagName := "P"; Redactor.value := EmptyString;
     Redactor.innerText := text'; Redactor.textContent := text';
     Redactor.alt := EmptyString; Redactor.title := EmptyString |}.

(** A drop-down list of countries. *)
Definition countrySelect : Redactor.Element :=
  {| Redactor.name := "country"; Redactor.id := "country";
     Redactor.placeholder := EmptyString; Redactor.type := "select-one";
     Redactor.tagName := "SELECT"; Redactor.value := "fr";
     Redactor.innerText := EmptyString; Redactor.textContent := EmptyString;
     Redactor.alt := EmptyString; Redactor.title := EmptyString |}.

(** [n] times the letter a. *)
Fixpoint letters (n : nat) : string :=
  match n with
  | O => EmptyString
  | S k => String "a" (letters k)
  end.

(** Crop rectangles on the 100x100 image: one with a negative width, one
    in the top left corner, one past the right and bottom edges. *)
Definition negativeWidth : Codec.Area :=
  {| Codec.x := 10; Codec.y := 10; Codec.width := -5; Codec.height := 20 |}.

Definition topLeftCorner : Codec.Area :=
  {| Codec.x := 0; Codec.y := 0; Codec.width := 50; Codec.height := 50 |}.

Definition pastTheEdges : Codec.Area :=
  {| Codec.x := 80; Codec.y := 90; Codec.width := 50; Codec.height := 50 |}.

(** A log stored out of chronological order: the step of time 200 before
    the step of time 100. *)
Definition lateThenEarly : list Step :=
  [recorded "click" "#save" "Save" 200; recorded "click" "#open" "Open" 100].

(** A screenshot step that carries an image. *)
Definition screenshotWithImage : Step :=
  {| type := Some "screenshot"; time := 0; url := Some "https://example.test/";
     text := None; selector := None;
     meta := Some {| action := Some "screenshot"; value := None |};
     dataURL := Some pngDataURL |}.

(** A log in chronological order, with a console line in it. *)
Definition chronological : list Step :=
  [recorded "click" "#open" "Open" 100;
   consoleLine "loaded" 150;
   recorded "click" "#save" "Save" 200].

(** A storage that holds the three steps and accepts every call, one
    whose next call fails for a reason other than quota, and one that
    holds the full log. *)
Definition threeStepsStored : World :=
  {| stored := Some threeSteps; faults := []; calls := [] |}.

Definition ioFailure : World :=
  {| stored := Some threeSteps; faults := [Some "I/O error"]; calls := [] |}.

Definition fullLogStored : World :=
  {| stored := Some fullLog; faults := []; calls := [] |}.

Definition clicks1001Stored : World :=
  {| stored := Some clicks1001; faults := []; calls := [] |}.

(** The fifth console line of the full log, once more. *)
Definition repeatedLine : Step := consoleLine "line 5" 0.

(** A text field for a user name, typed with spaces around it. *)
Definition usernameField : Redactor.Element :=
  {| Redactor.name := "username"; Redactor.id := "user";
     Redactor.placeholder := EmptyString; Redactor.type := "text";
     Redactor.tagName := "INPUT"; Redactor.value := "  alice  ";
     Redactor.innerText := EmptyString; Redactor.textContent := EmptyString;
     Redactor.alt := EmptyString; Redactor.title := EmptyString |}.

(** A rectangle inside the 100x100 image, away from its edges. *)
Definition insideArea : Codec.Area :=
  {| Codec.x := 10; Codec.y := 20; Codec.width := 30; Codec.height := 40 |}.

(** A drag from the bottom right to the top left. *)
Definition dragStart : Selection.Point := {| Selection.px := 120; Selection.py := 90 |}.
Definition dragEnd : Selection.Point := {| Selection.px := 20; Selection.py := 40 |}.

(** Three screenshots, out of order, 125.5 seconds from first to last. *)
Definition shotAt (t : Z) : Shots.Screenshot :=
  {| Shots.dataURL := None; Shots.dataUrl := None; Shots.timestamp := Some t;
     Shots.description := None; Shots.filename := None; Shots.type := Some "fullpage" |}.

Definition threeShots : list Shots.Screenshot :=
  [shotAt 1700000060000; shotAt 1700000000000; shotAt 1700000125500].

(** A text of 60000 characters, and 1001 [input] steps as the [input]
    listener builds them, one every second, each for this text typed in a
    text area of its own. *)
Definition longText : string := letters (Z.to_nat 60000).

Definition typedAt (i : nat) : Step :=
  {| type := Some "step"; time := 1000 * Z.of_nat i;
     url := Some "https://example.test/"; text := Some "notes";
     selector := Some ("#notes-" ++ Crop.show (Z.of_nat i));
     meta := Some {| action := Some "input"; value := Some longText |};
     dataURL := None |}.

Definition longInputs : list Step := map typedAt (seq 1 1001).

(** The brackets and the characters of the values of the steps:
    [JSON.stringify] writes every value in full, so the serialized log is
    at least this long. *)
Definition valueLength (steps : list Step) : Z :=
  2 + fold_right
        (fun step n =>
           Z.of_nat (String.length
                       (match metaValue step with Some v => v | None => EmptyString end))
           + n)
        0 steps.

End Examples.

(** * Properties *)

(** ** String helpers *)

Section JsStringFacts.

Import JsString.

Lemma strict_eq_spec (a b : option string) : strict_eq a b = true <-> a = b.
Proof.
  destruct a as [x|], b as [y|]; simpl; try (split; congruence).
  rewrite String.eqb_eq. split; congruence.
Qed.

Lemma length_slice0 (n : nat) (s : string) :
  String.length (slice0 n s) = Nat.min n (String.length s).
Proof.
  revert s; induction n as [|k IH]; intros [|c r]; simpl; auto.
Qed.

Lemma slice0_all (n : nat) (s : string) :
  (String.length s <= n)%nat -> slice0 n s = s.
Proof.
  revert s; induction n as [|k IH]; intros [|c r]; simpl; intros H;
    try reflexivity; try lia.
  f_equal. apply IH. lia.
Qed.

Lemma length_append (a b : string) :
  String.length (a ++ b) = (String.length a + String.length b)%nat.
Proof. induction a as [|c a IH]; simpl; auto. Qed.

Lemma prefix_refl (t : string) : String.prefix t t = true.
Proof.
  induction t as [|d t IH]; simpl; auto.
  destruct (ascii_dec d d); congruence.
Qed.

Lemma includes_refl (s : string) : includes s s = true.
Proof.
  destruct s as [|c r]; [reflexivity|].
  cbn [includes]. now rewrite prefix_refl.
Qed.

Lemma includes_truthy (s sub : string) :
  truthy sub = true -> includes s sub = true -> truthy s = true.
Proof.
  destruct s as [|c r]; [|reflexivity].
  destruct sub as [|d t]; simpl; intros; congruence.
Qed.

Lemma includes_prefix (s sub : string) :
  String.prefix sub s = true -> includes s sub = true.
Proof. intros H. destruct s; cbn [includes]; now rewrite H. Qed.

Lemma includes_append_left (a b sub : string) :
  includes b sub = true -> includes (a ++ b) sub = true.
Proof.
  intros H. induction a as [|c a IH]; [exact H|].
  cbn [append includes]. rewrite IH. apply orb_true_r.
Qed.

Lemma includes_append_right (a b : string) : includes (a ++ b) b = true.
Proof. apply includes_append_left, includes_refl. Qed.

End JsStringFacts.

(** ** Deduplication on append *)

Section Dedup.

Import JsString Store.
Local Open Scope Z_scope.

(** The callback of [some] answers [true] exactly on the two rules. *)
Lemma duplicateOf_spec (newStep step : Step) :
  duplicateOf newStep step = true <->
  Spec.exactDuplicate step newStep \/ Spec.rapidClick step newStep.
Proof.
  unfold duplicateOf, Spec.exactDuplicate, Spec.rapidClick.
  destruct (_ && _ && _ && _ && _) eqn:E1.
  - split; [intros _; left | reflexivity].
    rewrite !andb_true_iff, !strict_eq_spec, Z.leb_le in E1. tauto.
  - destruct ((_ <=? 25) && _ && _ && _) eqn:E2.
    + split; [intros _; right | reflexivity].
      rewrite !andb_true_iff, !strict_eq_spec, Z.leb_le in E2.
      intuition congruence.
    + assert (Hno : ~ (Spec.exactDuplicate step newStep \/ Spec.rapidClick step newStep)).
      { unfold Spec.exactDuplicate, Spec.rapidClick. intros [H | H].
        - assert (E : (Z.abs (time step - time newStep) <=? 100) &&
                      strict_eq (selector step) (selector newStep) &&
                      strict_eq (text step) (text newStep) &&
                      strict_eq (metaAction step) (metaAction newStep) &&
                      strict_eq (metaValue step) (metaValue newStep) = true).
          { rewrite !andb_true_iff, !strict_eq_spec, Z.leb_le. tauto. }
          congruence.
        - assert (E : (Z.abs (time step - time newStep) <=? 25) &&
                      strict_eq (selector step) (selector newStep) &&
                      strict_eq (metaAction step) (metaAction newStep) &&
                      strict_eq (metaAction step) (Some "click"%string) = true).
          { rewrite !andb_true_iff, !strict_eq_spec, Z.leb_le.
            intuition congruence. }
          congruence. }
      split; [| intros H; exfalso; exact (Hno H)].
      repeat match goal with
             | |- context [if ?c then _ else _] => destruct c
             end; discriminate.
Qed.

Lemma isDuplicate_spec (steps : list Step) (newStep : Step) :
  isDuplicate steps newStep = true <-> Spec.matchesExisting steps newStep.
Proof.
  unfold isDuplicate, Spec.matchesExisting. rewrite existsb_exists.
  split; intros [s [Hin H]]; exists s; split; auto; now apply duplicateOf_spec.
Qed.

(** A log below the cap is looked at as it is. *)
Lemma makeRoom_below_cap (steps : list Step) :
  (List.length steps < MAX_STEPS)%nat -> makeRoom steps = steps.
Proof.
  unfold makeRoom. intros H.
  destruct (Nat.leb_spec MAX_STEPS (List.length steps)); [lia | reflexivity].
Qed.

(** A suppressed step leaves the log as [makeRoom] left it. *)
Lemma suppressed_not_pushed (steps : list Step) (newStep : Step) :
  suppressed steps newStep = true ->
  pushUnlessDuplicate (makeRoom steps) newStep = makeRoom steps.
Proof. unfold suppressed, pushUnlessDuplicate. now intros ->. Qed.

(** A step that is not suppressed is the newest entry of the log. *)
Lemma not_suppressed_pushed (steps : list Step) (newStep : Step) :
  suppressed steps newStep = false ->
  exists older, pushUnlessDuplicate (makeRoom steps) newStep = (older ++ [newStep])%list.
Proof.
  unfold suppressed, pushUnlessDuplicate. intros ->.
  destruct (Nat.ltb_spec 1000 (List.length (makeRoom steps ++ [newStep]))) as [H|H].
  - rewrite length_app in *. simpl in *.
    rewrite skipn_app.
    replace (List.length (makeRoom steps) + 1 - 1000 - List.length (makeRoom steps))%nat
      with 0%nat by lia.
    simpl. eauto.
  - eauto.
Qed.

(** C1, as amended: [addStep] suppresses the new Step if and only if one
    of the two rules (within 100ms with the same selector, text, action
    and meta value; or within 25ms with the same selector, both clicks)
    holds for a Step of the log as it is once the oldest entry of a full
    log (1000 Steps) has been removed; a suppressed Step is not pushed, any
    other becomes the newest entry. *)
Theorem C1_suppressed_iff_rule_after_eviction (steps : list Step) (newStep : Step) :
  (suppressed steps newStep = true <->
   Spec.matchesExisting (makeRoom steps) newStep) /\
  (suppressed steps newStep = true ->
   pushUnlessDuplicate (makeRoom steps) newStep = makeRoom steps) /\
  (suppressed steps newStep = false ->
   exists older,
     pushUnlessDuplicate (makeRoom steps) newStep = (older ++ [newStep])%list).
Proof.
  split; [apply isDuplicate_spec|].
  split; [apply suppressed_not_pushed | apply not_suppressed_pushed].
Qed.

(** On a log below the cap the claim holds as the specification words it. *)
Lemma suppressed_iff_rule_below_cap (steps : list Step) (newStep : Step) :
  (List.length steps < MAX_STEPS)%nat ->
  (suppressed steps newStep = true <-> Spec.matchesExisting steps newStep).
Proof.
  intros H. unfold suppressed. rewrite (makeRoom_below_cap steps H).
  apply isDuplicate_spec.
Qed.

(** C1 fails on a full log: the click on [#login] recorded at time 0 is in
    the log and is an exact duplicate of the one that arrives 50ms later,
    but it is the oldest of 1000 entries and is evicted before the check,
    so the new click is stored. *)
Lemma C1_full_log_counterexample :
  ~ (suppressed Examples.fullLog Examples.repeatedLogin = true <->
     Spec.matchesExisting Examples.fullLog Examples.repeatedLogin).
Proof.
  intros [_ H].
  assert (Hs : suppressed Examples.fullLog Examples.repeatedLogin = false)
    by (vm_compute; reflexivity).
  rewrite H in Hs; [discriminate|].
  exists (Examples.recorded "click" "#login" "Login" 0). split.
  - left. reflexivity.
  - left. unfold Spec.exactDuplicate. simpl. repeat split; lia.
Qed.

End Dedup.

(** ** The storage monad *)

Section StorageFacts.

Import JsString Store.

Variable json_length : list Step -> Z.

(** A storage call either rejects and leaves the value alone, or resolves
    and applies its effect. *)
Lemma storageCall_cases (call : StorageCall)
    (effect : option (list Step) -> option (list Step)) (w : World) :
  (exists msg rest, faults w = Some msg :: rest /\
     storageCall call effect w =
       (Rejected msg,
        {| stored := stored w; faults := rest; calls := calls w ++ [call] |})) \/
  (storageCall call effect w =
     (Resolved tt,
      {| stored := effect (stored w); faults := tl (faults w);
         calls := calls w ++ [call] |})).
Proof.
  unfold storageCall. destruct (faults w) as [|[msg|] rest]; simpl; eauto.
Qed.

Lemma storageCall_quiet (call : StorageCall)
    (effect : option (list Step) -> option (list Step)) (w : World) :
  faults w = [] ->
  storageCall call effect w =
    (Resolved tt,
     {| stored := effect (stored w); faults := []; calls := calls w ++ [call] |}).
Proof. unfold storageCall. now intros ->. Qed.

(** The loop of [storeSteps] only removes entries from the front... *)
Lemma trimLoop_suffix (fuel : nat) (steps : list Step) :
  exists k, trimLoop json_length fuel steps = skipn k steps.
Proof.
  revert steps; induction fuel as [|fuel IH]; intros steps; cbn [trimLoop].
  - now exists 0%nat.
  - destruct (_ && _).
    + destruct (IH (skipn (List.length steps / 10) steps)) as [k ->].
      rewrite skipn_skipn. eauto.
    + now exists 0%nat.
Qed.

(** ... and it stops by its own test, not for lack of fuel: what it
    returns is within the budget or has at most 10 entries. *)
Lemma trimLoop_done (fuel : nat) (steps : list Step) :
  (List.length steps <= fuel)%nat ->
  let r := trimLoop json_length fuel steps in
  (json_length r <= MAX_STORAGE_SIZE)%Z \/ (List.length r <= 10)%nat.
Proof.
  revert steps; induction fuel as [|fuel IH]; intros steps Hlen; cbn [trimLoop].
  - right. cbn zeta. lia.
  - destruct (Z.ltb_spec MAX_STORAGE_SIZE (json_length steps)) as [Hbig|Hok];
      [|left; exact Hok].
    destruct (Nat.ltb_spec 10 (List.length steps)) as [Hlong|Hshort];
      [|right; exact Hshort].
    cbn [andb]. apply IH. rewrite length_skipn.
    assert (1 <= List.length steps / 10)%nat
      by (apply Nat.div_le_lower_bound; lia).
    lia.
Qed.

Lemma trimToBudget_suffix (steps : list Step) :
  exists k, trimToBudget json_length steps = skipn k steps.
Proof.
  unfold trimToBudget. destruct (_ <? _)%Z.
  - apply trimLoop_suffix.
  - now exists 0%nat.
Qed.

Lemma trimToBudget_within (steps : list Step) :
  (json_length steps <= MAX_STORAGE_SIZE)%Z ->
  trimToBudget json_length steps = steps.
Proof.
  unfold trimToBudget. intros H.
  destruct (Z.ltb_spec MAX_STORAGE_SIZE (json_length steps)); [lia | reflexivity].
Qed.

Lemma trimToBudget_length (steps : list Step) :
  (List.length (trimToBudget json_length steps) <= List.length steps)%nat.
Proof.
  destruct (trimToBudget_suffix steps) as [k ->]. rewrite length_skipn. lia.
Qed.

End StorageFacts.

(** ** Writing the log *)

Section StoreSteps.

Import JsString Store.

Variable json_length : list Step -> Z.

Lemma storeSteps_quiet (steps : list Step) (w : World) :
  faults w = [] ->
  storeSteps json_length steps w =
    ({| ok := true; error := None |},
     {| stored := Some (trimToBudget json_length steps); faults := [];
        calls := calls w ++ [StorageSet (trimToBudget json_length steps)] |}).
Proof.
  intros H. unfold storeSteps, bind, storageSet.
  now rewrite (storageCall_quiet _ _ w H).
Qed.

(** Whatever the storage does, [storeSteps] leaves under the key the log
    it was given (trimmed to the byte budget), the value that was there,
    or nothing. *)
Lemma storeSteps_stored (steps : list Step) (w : World) :
  let w' := snd (storeSteps json_length steps w) in
  stored w' = Some (trimToBudget json_length steps) \/
  stored w' = stored w \/ stored w' = None.
Proof.
  unfold storeSteps, bind, storageSet.
  destruct (storageCall_cases (StorageSet (trimToBudget json_length steps))
              (fun _ => Some (trimToBudget json_length steps)) w)
    as [(msg & rest & Hf & ->) | ->]; cbn; [|now left].
  destruct (truthy msg && includes msg "QUOTA_EXCEEDED"); cbn; [|now right; left].
  unfold clearSteps, bind, storageRemove.
  match goal with
  | |- context [storageCall ?c ?e ?w0] =>
      destruct (storageCall_cases c e w0) as [(msg' & rest' & Hf' & ->) | ->]
  end; cbn; auto.
Qed.

(** C4, as amended: when the write of [storeSteps] is rejected with a
    quota-exceeded error, the gateway makes one remediation, the removal
    of the whole stored log ([clearSteps]), makes no second write, and
    answers [{ ok: false, error }] with the message of the rejection. *)
Theorem C4_quota_failure_clears_whole_log
    (steps : list Step) (w : World) (msg : string) (rest : list (option string)) :
  faults w = Some msg :: rest ->
  includes msg "QUOTA_EXCEEDED" = true ->
  let result := storeSteps json_length steps w in
  fst result = {| ok := false; error := Some msg |} /\
  calls (snd result) =
    calls w ++ [StorageSet (trimToBudget json_length steps); StorageRemove] /\
  writes (snd result) = writes w ++ [StorageSet (trimToBudget json_length steps)] /\
  stored (snd result) =
    match rest with
    | Some _ :: _ => stored w
    | _ => None
    end.
Proof.
  intros Hf Hq.
  assert (Ht : truthy msg = true) by (eapply includes_truthy; eauto; reflexivity).
  unfold storeSteps, bind, storageSet, storageCall. rewrite Hf. cbn.
  rewrite Ht, Hq. cbn.
  unfold clearSteps, bind, storageRemove, storageCall. cbn.
  unfold writes.
  destruct rest as [|[msg'|] rest']; cbn;
    rewrite <- ?app_assoc; cbn; rewrite ?filter_app; cbn;
    rewrite ?app_nil_r; auto.
Qed.

End StoreSteps.

Section StoreStepsExamples.

Import JsString Store Examples.

(** C4 at a concrete rejection: one write, one removal of the whole log,
    no retry, and the error in the answer. *)
Lemma C4_quota_failure_witness :
  faults quotaWorld = [Some "QUOTA_EXCEEDED: storage quota exceeded"%string] /\
  includes "QUOTA_EXCEEDED: storage quota exceeded" "QUOTA_EXCEEDED" = true /\
  let result := storeSteps estimatedLength threeSteps quotaWorld in
  fst result =
    {| ok := false; error := Some "QUOTA_EXCEEDED: storage quota exceeded"%string |} /\
  calls (snd result) =
    calls quotaWorld ++
    [StorageSet (trimToBudget estimatedLength threeSteps); StorageRemove] /\
  writes (snd result) =
    writes quotaWorld ++ [StorageSet (trimToBudget estimatedLength threeSteps)] /\
  stored (snd result) = None.
Proof.
  split; [reflexivity|]. split; [reflexivity|].
  apply (@C4_quota_failure_clears_whole_log estimatedLength threeSteps quotaWorld
           "QUOTA_EXCEEDED: storage quota exceeded" []); reflexivity.
Defined.

(** C4 fails: after a quota-exceeded rejection there is no second write
    of the log without a fraction of its oldest entries; the one write is
    the rejected one, and nothing is left under the key. *)
Lemma C4_no_retry_counterexample :
  ~ Spec.quotaRemediation threeSteps
      (snd (storeSteps estimatedLength threeSteps quotaWorld)) /\
  stored (snd (storeSteps estimatedLength threeSteps quotaWorld)) = None.
Proof.
  split; [|reflexivity].
  intros [k [_ H]]. vm_compute in H. discriminate H.
Qed.

End StoreStepsExamples.

(** ** The count cap *)

Section CountCap.

Import JsString Store.

Variable json_length : list Step -> Z.
Variable P : Codec.Platform.

Local Abbreviation compressed := (compressIfPresent P).

(** Reduce pairs and record projections, and leave the comparisons with
    [MAX_STEPS] folded. *)
Ltac reduce :=
  cbn beta iota zeta delta [fst snd ret stored faults calls ok error] in *.

Lemma length_lastN (n : nat) (steps : list Step) :
  List.length (lastN n steps) = Nat.min n (List.length steps).
Proof. unfold lastN. rewrite length_skipn. lia. Qed.

Lemma lastN_short (n : nat) (steps : list Step) :
  (List.length steps <= n)%nat -> lastN n steps = steps.
Proof.
  unfold lastN. intros H.
  now replace (List.length steps - n)%nat with 0%nat by lia.
Qed.

Lemma tl_skipn (k : nat) (steps : list Step) :
  tl (skipn k steps) = skipn (S k) steps.
Proof.
  revert steps; induction k as [|k IH]; intros [|a steps]; simpl; auto.
Qed.

Lemma In_skipn (k : nat) (steps : list Step) (a : Step) :
  In a (skipn k steps) -> In a steps.
Proof.
  intros H. rewrite <- (firstn_skipn k steps). apply in_or_app. now right.
Qed.

Lemma makeRoom_suffix (steps : list Step) :
  exists k, makeRoom steps = skipn k steps.
Proof.
  unfold makeRoom. destruct (_ <=? _)%nat.
  - exists 1%nat. now destruct steps.
  - now exists 0%nat.
Qed.

Lemma makeRoom_length (steps : list Step) :
  (List.length steps <= MAX_STEPS)%nat ->
  (List.length (makeRoom steps) < MAX_STEPS)%nat.
Proof.
  unfold makeRoom. intros H.
  destruct (Nat.leb_spec MAX_STEPS (List.length steps)) as [Hfull|Hroom]; [|exact Hroom].
  destruct steps as [|a steps]; simpl in *; [unfold MAX_STEPS in *; lia | lia].
Qed.

Lemma pushUnlessDuplicate_length (steps : list Step) (newStep : Step) :
  (List.length steps < MAX_STEPS)%nat ->
  (List.length (pushUnlessDuplicate steps newStep) <= MAX_STEPS)%nat.
Proof.
  unfold pushUnlessDuplicate, MAX_STEPS. intros H.
  destruct (isDuplicate steps newStep); [lia|].
  rewrite length_app. simpl.
  destruct (Nat.ltb_spec 1000 (List.length steps + 1)); [lia|].
  rewrite length_app. simpl. lia.
Qed.

Lemma pushUnlessDuplicate_suffix (steps : list Step) (newStep : Step) :
  exists k, pushUnlessDuplicate steps newStep = skipn k steps \/
            pushUnlessDuplicate steps newStep = skipn k (steps ++ [newStep]).
Proof.
  unfold pushUnlessDuplicate. destruct (isDuplicate steps newStep).
  - exists 0%nat. now left.
  - destruct (_ <? _)%nat; eauto. exists 0%nat. now right.
Qed.

(** [getStoredSteps] never hands out more than [MAX_STEPS] steps. *)
Lemma getStoredSteps_length (w : World) :
  (List.length (fst (getStoredSteps json_length w)) <= MAX_STEPS)%nat.
Proof.
  unfold getStoredSteps, bind, storageGet.
  destruct (storageCall StorageGet (fun v => v) w) as [[u|msg] w1]; reduce.
  - destruct (Nat.ltb_spec MAX_STEPS
                (List.length match stored w with Some s => s | None => [] end)).
    + match goal with
      | |- context [storeSteps json_length ?l w1] =>
          destruct (storeSteps json_length l w1)
      end.
      reduce. rewrite length_lastN. lia.
    + reduce. assumption.
  - reduce. unfold MAX_STEPS. cbn [List.length]. lia.
Qed.

(** Under the cap, [getStoredSteps] reads the log and leaves it alone. *)
Lemma getStoredSteps_under_cap (w : World) :
  (storedLength w <= MAX_STEPS)%nat ->
  let r := getStoredSteps json_length w in
  stored (snd r) = stored w /\ (fst r = current w \/ fst r = []).
Proof.
  unfold storedLength, current, getStoredSteps, bind, storageGet. intros H.
  destruct (storageCall_cases StorageGet (fun v => v) w)
    as [(msg & rest & Hf & ->) | ->]; reduce; auto.
  destruct (Nat.ltb_spec MAX_STEPS
              (List.length match stored w with Some s => s | None => [] end));
    [lia|]. reduce. auto.
Qed.

Lemma getStoredSteps_quiet (w : World) :
  faults w = [] ->
  (storedLength w <= MAX_STEPS)%nat ->
  getStoredSteps json_length w =
    (current w,
     {| stored := stored w; faults := []; calls := calls w ++ [StorageGet] |}).
Proof.
  unfold storedLength, current, getStoredSteps, bind, storageGet. intros Hf H.
  rewrite (storageCall_quiet _ _ w Hf).
  destruct (Nat.ltb_spec MAX_STEPS
              (List.length match stored w with Some s => s | None => [] end));
    [lia | reflexivity].
Qed.

(** The cap is an invariant of [addStep], whatever the storage does. *)
Lemma addStep_count_cap (newStep : Step) (w : World) :
  (storedLength w <= MAX_STEPS)%nat ->
  (storedLength (snd (addStep json_length P newStep w)) <= MAX_STEPS)%nat.
Proof.
  intros H. unfold addStep, bind.
  pose proof (getStoredSteps_length w) as Hlen.
  pose proof (getStoredSteps_under_cap w H) as [Hst _].
  destruct (getStoredSteps json_length w) as [steps w1]. reduce.
  pose proof (storeSteps_stored json_length
                (pushUnlessDuplicate (makeRoom steps) (compressed newStep)) w1) as Hcases.
 reduce. unfold storedLength, current.
  destruct Hcases as [-> | [-> | ->]].
  - etransitivity; [apply trimToBudget_length|].
    apply pushUnlessDuplicate_length, makeRoom_length, Hlen.
  - rewrite Hst. exact H.
  - reduce. cbn. lia.
Qed.

(** The first write of an [addStep] that the storage accepts is within
    the cap, whatever was stored before. *)
Lemma addStep_ok_count_cap (newStep : Step) (w : World) :
  ok (fst (addStep json_length P newStep w)) = true ->
  (storedLength (snd (addStep json_length P newStep w)) <= MAX_STEPS)%nat.
Proof.
  unfold addStep, bind.
  pose proof (getStoredSteps_length w) as Hlen.
  destruct (getStoredSteps json_length w) as [steps w1]. reduce.
  set (log := pushUnlessDuplicate (makeRoom steps) (compressed newStep)).
  assert (Hlog : (List.length (trimToBudget json_length log) <= MAX_STEPS)%nat).
  { etransitivity; [apply trimToBudget_length|].
    apply pushUnlessDuplicate_length, makeRoom_length, Hlen. }
  unfold storeSteps, bind, storageSet.
  destruct (storageCall_cases (StorageSet (trimToBudget json_length log))
              (fun _ => Some (trimToBudget json_length log)) w1)
    as [(msg & rest & Hf & ->) | ->]; reduce.
  - destruct (truthy msg && includes msg "QUOTA_EXCEEDED");
      [destruct (clearSteps _)|]; reduce; discriminate.
  - intros _. exact Hlog.
Qed.

(** *** Oldest first *)

Lemma suffix_snoc (k : nat) (steps : list Step) (x : Step) :
  exists k', (skipn k steps ++ [x])%list = skipn k' (steps ++ [x]).
Proof.
  destruct (Nat.le_gt_cases k (List.length steps)) as [H|H].
  - exists k. rewrite skipn_app.
    now replace (k - List.length steps)%nat with 0%nat by lia.
  - exists (List.length steps). rewrite skipn_app, Nat.sub_diag.
    rewrite !skipn_all2 by lia. reflexivity.
Qed.

Lemma getStoredSteps_quiet_suffix (w : World) :
  faults w = [] ->
  exists k w1, getStoredSteps json_length w = (skipn k (current w), w1) /\
               faults w1 = [].
Proof.
  unfold current, getStoredSteps, bind, storageGet. intros Hf.
  rewrite (storageCall_quiet _ _ w Hf).
  destruct (_ <? _)%nat.
  - rewrite storeSteps_quiet by reflexivity. unfold lastN, ret. eauto.
  - exists 0%nat. unfold ret. cbn [skipn]. eauto.
Qed.

(** Without storage failures, what [addStep] leaves is the log it found,
    with the new step at the end or not, less some of its oldest entries. *)
Lemma addStep_evicts_oldest (newStep : Step) (w : World) :
  faults w = [] ->
  exists k,
    stored (snd (addStep json_length P newStep w)) = Some (skipn k (current w)) \/
    stored (snd (addStep json_length P newStep w)) =
      Some (skipn k (current w ++ [compressed newStep])).
Proof.
  intros Hf. unfold addStep, bind.
  destruct (getStoredSteps_quiet_suffix w Hf) as (k0 & w1 & -> & Hf1).
  rewrite storeSteps_quiet by exact Hf1. reduce.
  destruct (makeRoom_suffix (skipn k0 (current w))) as [k1 ->].
  rewrite skipn_skipn.
  destruct (trimToBudget_suffix json_length
              (pushUnlessDuplicate (skipn (k1 + k0) (current w)) (compressed newStep)))
    as [k3 ->].
  destruct (pushUnlessDuplicate_suffix (skipn (k1 + k0) (current w)) (compressed newStep))
    as [k2 [-> | ->]].
  - rewrite !skipn_skipn. eauto.
  - destruct (suffix_snoc (k1 + k0) (current w) (compressed newStep)) as [k' ->].
    rewrite !skipn_skipn. eauto.
Qed.

(** *** A sequence of distinct steps *)

(** Compression touches the image of a step and nothing else. *)
Lemma compressIfPresent_fields (s : Step) :
  type (compressed s) = type s /\ time (compressed s) = time s /\
  text (compressed s) = text s /\ selector (compressed s) = selector s /\
  meta (compressed s) = meta s.
Proof.
  unfold compressIfPresent.
  destruct (dataURL s) as [d|]; [|tauto].
  destruct (truthy d); [|tauto].
  destruct (Codec.compressScreenshot P d (7 # 10)); cbn; tauto.
Qed.

Lemma duplicateOf_compressed (a b : Step) :
  duplicateOf (compressed a) (compressed b) = duplicateOf a b.
Proof.
  destruct (compressIfPresent_fields a) as (Ha1 & Ha2 & Ha3 & Ha4 & Ha5).
  destruct (compressIfPresent_fields b) as (Hb1 & Hb2 & Hb3 & Hb4 & Hb5).
  unfold duplicateOf, metaAction, metaValue.
  now rewrite Ha1, Ha2, Ha3, Ha4, Ha5, Hb1, Hb2, Hb3, Hb4, Hb5.
Qed.

(** The duplicate check does not look at the image, so [suppressed] is
    the test [addStep] makes on the log that [getStoredSteps] hands it. *)
Lemma isDuplicate_compressed (steps : list Step) (newStep : Step) :
  isDuplicate steps (compressed newStep) = isDuplicate steps newStep.
Proof.
  destruct (compressIfPresent_fields newStep) as (H1 & H2 & H3 & H4 & H5).
  unfold isDuplicate. induction steps as [|s steps IH]; [reflexivity|].
  cbn [existsb]. rewrite IH. f_equal.
  unfold duplicateOf, metaAction, metaValue.
  now rewrite H1, H2, H3, H4, H5.
Qed.

Lemma addStep_suppressed (newStep : Step) (w : World) :
  addStep json_length P newStep w =
    let '(found, w1) := getStoredSteps json_length w in
    storeSteps json_length
      (if suppressed found newStep
       then makeRoom found
       else pushUnlessDuplicate (makeRoom found) (compressed newStep)) w1.
Proof.
  unfold addStep, bind, suppressed.
  destruct (getStoredSteps json_length w) as [found w1].
  destruct (isDuplicate (makeRoom found) newStep) eqn:E; [|reflexivity].
  unfold pushUnlessDuplicate. now rewrite isDuplicate_compressed, E.
Qed.

Lemma pairwiseDistinct_later (p l : list Step) (x a : Step) :
  Spec.pairwiseDistinct (p ++ x :: l) = true -> In a p -> duplicateOf x a = false.
Proof.
  induction p as [|a0 p IH]; intros Hd Hin; [destruct Hin|].
  cbn [app Spec.pairwiseDistinct] in Hd. apply andb_true_iff in Hd as [Hall Hd].
  destruct Hin as [<- | Hin]; [|now apply IH].
  rewrite forallb_forall in Hall.
  specialize (Hall x (in_or_app _ _ _ (or_intror (in_eq _ _)))).
  now apply negb_true_iff in Hall.
Qed.

(** Appending a step that duplicates none of the earlier ones to the last
    1000 of them leaves the last 1000 of all. *)
Lemma push_lastN (p : list Step) (x : Step) :
  (forall a, In a p -> duplicateOf x a = false) ->
  pushUnlessDuplicate (makeRoom (lastN 1000 p)) x = lastN 1000 (p ++ [x]).
Proof.
  intros Hd.
  assert (Hnd : isDuplicate (makeRoom (lastN 1000 p)) x = false).
  { apply not_true_is_false. unfold isDuplicate. rewrite existsb_exists.
    intros (a & Hin & Ha).
    destruct (makeRoom_suffix (lastN 1000 p)) as [k Hk]. rewrite Hk in Hin.
    unfold lastN in Hin. apply In_skipn, In_skipn in Hin.
    rewrite (Hd a Hin) in Ha. discriminate. }
  unfold pushUnlessDuplicate. rewrite Hnd.
  unfold makeRoom, MAX_STEPS. rewrite length_lastN.
  destruct (Nat.leb_spec 1000 (Nat.min 1000 (List.length p))) as [Hfull|Hroom].
  - unfold lastN. rewrite tl_skipn, !length_app, length_skipn. cbn [List.length].
    destruct (Nat.ltb_spec 1000 (List.length p - S (List.length p - 1000) + 1)); [lia|].
    rewrite skipn_app.
    replace (List.length p + 1 - 1000 - List.length p)%nat with 0%nat by lia.
    replace (List.length p + 1 - 1000)%nat with (S (List.length p - 1000)) by lia.
    reflexivity.
  - rewrite (@lastN_short 1000%nat p) by lia.
    rewrite length_app. cbn [List.length].
    destruct (Nat.ltb_spec 1000 (List.length p + 1)); [lia|].
    rewrite lastN_short; [reflexivity|]. rewrite length_app. cbn [List.length]. lia.
Qed.

Lemma addStep_quiet (newStep : Step) (w : World) :
  faults w = [] ->
  (storedLength w <= MAX_STEPS)%nat ->
  let log := pushUnlessDuplicate (makeRoom (current w)) (compressed newStep) in
  (json_length log <= MAX_STORAGE_SIZE)%Z ->
  addStep json_length P newStep w =
    ({| ok := true; error := None |},
     {| stored := Some log; faults := [];
        calls := calls w ++ [StorageGet; StorageSet log] |}).
Proof.
  intros Hf Hlen log Hbudget. unfold addStep, bind.
  rewrite getStoredSteps_quiet by assumption.
  rewrite storeSteps_quiet by reflexivity. fold log.
  rewrite trimToBudget_within by exact Hbudget.
  reduce. now rewrite <- app_assoc.
Qed.

(** After distinct steps are appended one by one, on a storage that does
    not fail and with every window of the sequence within the byte budget,
    the log is the last 1000 of them, in the order they came. *)
Lemma addSteps_distinct (l : list Step) :
  forall (p : list Step) (w : World),
    faults w = [] ->
    current w = lastN 1000 (map compressed p) ->
    Spec.pairwiseDistinct (p ++ l) = true ->
    (forall i k,
       (json_length (skipn k (firstn i (map compressed (p ++ l)))) <= MAX_STORAGE_SIZE)%Z) ->
    let w' := snd (addSteps json_length P l w) in
    faults w' = [] /\ current w' = lastN 1000 (map compressed (p ++ l)).
Proof.
  induction l as [|x l IH]; intros p w Hf Hcur Hd Hb.
  - cbn. now rewrite app_nil_r.
  - assert (Hpush : pushUnlessDuplicate (makeRoom (current w)) (compressed x) =
                    lastN 1000 (map compressed (p ++ [x]))).
    { rewrite Hcur, map_app. apply push_lastN.
      intros a Hin. apply in_map_iff in Hin as (a0 & <- & Hin).
      rewrite duplicateOf_compressed. eapply pairwiseDistinct_later; eauto. }
    assert (Hstep : addStep json_length P x w =
              ({| ok := true; error := None |},
               {| stored := Some (lastN 1000 (map compressed (p ++ [x])));
                  faults := [];
                  calls := calls w ++
                    [StorageGet; StorageSet (lastN 1000 (map compressed (p ++ [x])))] |})).
    { rewrite <- Hpush. apply addStep_quiet; [exact Hf | |].
      - unfold storedLength. rewrite Hcur, length_lastN. unfold MAX_STEPS. lia.
      - rewrite Hpush. unfold lastN.
        replace (map compressed (p ++ [x]))
          with (firstn (List.length p + 1) (map compressed (p ++ x :: l))).
        + apply Hb.
        + rewrite firstn_map.
          replace (p ++ x :: l)%list with ((p ++ [x]) ++ l)%list
            by (now rewrite <- app_assoc).
          rewrite firstn_app, length_app. cbn [List.length].
          rewrite Nat.sub_diag, firstn_O, app_nil_r.
          rewrite firstn_all2; [reflexivity|]. rewrite length_app. cbn. lia. }
    set (w1 := {| stored := Some (lastN 1000 (map compressed (p ++ [x])));
                  faults := [];
                  calls := calls w ++
                    [StorageGet;
                     StorageSet (lastN 1000 (map compressed (p ++ [x])))] |}) in *.
    assert (Hw' : snd (addSteps json_length P (x :: l) w) =
                  snd (addSteps json_length P l w1)).
    { cbn [addSteps]. unfold bind at 1. rewrite Hstep. unfold bind, ret.
      now destruct (addSteps json_length P l w1). }
    cbv zeta. rewrite Hw'.
    specialize (IH (p ++ [x])%list w1).
    rewrite <- app_assoc in IH. cbn [app] in IH.
    exact (IH eq_refl eq_refl Hd Hb).
Qed.

(** What [addStep] leaves on a storage that accepts the calls is within
    the byte budget or has at most 10 entries, and holds no step but those
    of the log it found and the new one. *)
Lemma trimToBudget_done (steps : list Step) :
  (json_length (trimToBudget json_length steps) <= MAX_STORAGE_SIZE)%Z \/
  (List.length (trimToBudget json_length steps) <= 10)%nat.
Proof.
  unfold trimToBudget.
  destruct (Z.ltb_spec MAX_STORAGE_SIZE (json_length steps)) as [Hbig|Hok];
    [|left; exact Hok].
  apply trimLoop_done. lia.
Qed.

Lemma addStep_within_budget (newStep : Step) (w : World) :
  faults w = [] ->
  faults (snd (addStep json_length P newStep w)) = [] /\
  exists log,
    stored (snd (addStep json_length P newStep w)) = Some log /\
    ((json_length log <= MAX_STORAGE_SIZE)%Z \/ (List.length log <= 10)%nat) /\
    incl log (current w ++ [compressed newStep]).
Proof.
  intros Hf.
  destruct (addStep_evicts_oldest newStep w Hf) as [k Hk].
  revert Hk. unfold addStep, bind.
  destruct (getStoredSteps_quiet_suffix w Hf) as (k0 & w1 & -> & Hf1).
  rewrite storeSteps_quiet by exact Hf1. reduce. intros Hk.
  split; [reflexivity|]. eexists. split; [reflexivity|].
  split; [apply trimToBudget_done|].
  intros a Ha.
  destruct Hk as [Hk | Hk]; injection Hk as Hk; rewrite Hk in Ha;
    apply In_skipn in Ha; [apply in_or_app; now left | exact Ha].
Qed.

Lemma addSteps_cons (x : Step) (l : list Step) (w : World) :
  snd (addSteps json_length P (x :: l) w) =
  snd (addSteps json_length P l (snd (addStep json_length P x w))).
Proof.
  cbn [addSteps]. unfold bind, ret.
  destruct (addStep json_length P x w) as [r w1]. cbn [snd].
  now destruct (addSteps json_length P l w1).
Qed.

(** The same after a sequence of steps, appended one by one. *)
Lemma addSteps_within_budget (l : list Step) :
  forall w : World,
    faults w = [] -> l <> [] ->
    faults (snd (addSteps json_length P l w)) = [] /\
    exists log,
      stored (snd (addSteps json_length P l w)) = Some log /\
      ((json_length log <= MAX_STORAGE_SIZE)%Z \/ (List.length log <= 10)%nat) /\
      incl log (current w ++ map compressed l).
Proof.
  induction l as [|x l IH]; intros w Hf Hne; [congruence|].
  destruct (addStep_within_budget x w Hf) as (Hf1 & log1 & Hs1 & Hb1 & Hi1).
  rewrite addSteps_cons.
  destruct l as [|y l].
  - cbn [addSteps map]. unfold ret. cbn [snd].
    split; [exact Hf1|]. exists log1. auto.
  - assert (Hne' : y :: l <> []) by discriminate.
    destruct (IH _ Hf1 Hne') as (Hf2 & log & Hs & Hb & Hi).
    split; [exact Hf2|]. exists log. split; [exact Hs|]. split; [exact Hb|].
    intros a Ha. apply Hi in Ha. unfold current in Ha at 1. rewrite Hs1 in Ha.
    apply in_app_or in Ha as [Ha | Ha].
    + apply Hi1 in Ha. apply in_app_or in Ha as [Ha | Ha].
      * apply in_or_app. now left.
      * apply in_or_app. right. cbn [map]. destruct Ha as [<- | []]. now left.
    + apply in_or_app. right. cbn [map]. now right.
Qed.

End CountCap.

Section CountCapClaim.

Import JsString Store Examples.

(** C3, as amended: after every [addStep] the stored log has at most 1000
    entries (the cap is an invariant, whatever the storage answers, and
    holds after every [addStep] that answers [ok]); what [addStep] leaves
    on a storage that accepts the calls is the log it found, with or
    without the new Step at its end, less some of its oldest entries; and
    1001 pairwise non-duplicate Steps appended one by one to an empty log,
    on a storage that accepts the writes and with every run of consecutive
    Steps of the sequence within the byte budget once serialized, leave
    exactly 1000 Steps, the 2nd to the 1001st in the order they were
    appended. *)
Theorem C3_count_cap_oldest_first :
  (forall json_length P newStep w,
     (storedLength w <= MAX_STEPS)%nat ->
     (storedLength (snd (addStep json_length P newStep w)) <= MAX_STEPS)%nat) /\
  (forall json_length P newStep w,
     faults w = [] ->
     exists k,
       stored (snd (addStep json_length P newStep w)) = Some (skipn k (current w)) \/
       stored (snd (addStep json_length P newStep w)) =
         Some (skipn k (current w ++ [compressIfPresent P newStep]))) /\
  (forall json_length P newStep w,
     ok (fst (addStep json_length P newStep w)) = true ->
     (storedLength (snd (addStep json_length P newStep w)) <= MAX_STEPS)%nat) /\
  (forall json_length P steps,
     List.length steps = 1001%nat ->
     Spec.pairwiseDistinct steps = true ->
     (forall i k,
        (json_length (skipn k (firstn i (map (compressIfPresent P) steps)))
         <= MAX_STORAGE_SIZE)%Z) ->
     let w' := snd (addSteps json_length P steps emptyWorld) in
     current w' = map (compressIfPresent P) (tl steps) /\
     List.length (current w') = 1000%nat).
Proof.
  split; [exact addStep_count_cap|].
  split; [exact addStep_evicts_oldest|].
  split; [exact addStep_ok_count_cap|].
  intros json_length P steps Hlen Hd Hb w'.
  destruct (@addSteps_distinct json_length P steps [] emptyWorld
              eq_refl eq_refl Hd Hb) as [_ Hcur].
  cbn [app] in Hcur. fold w' in Hcur.
  assert (Hlast : lastN 1000 (map (compressIfPresent P) steps) =
                  map (compressIfPresent P) (tl steps)).
  { unfold lastN. rewrite length_map, Hlen.
    replace (1001 - 1000)%nat with 1%nat by lia.
    destruct steps; reflexivity. }
  rewrite Hcur, Hlast. split; [reflexivity|].
  rewrite length_map. destruct steps; cbn in *; [discriminate | lia].
Qed.

Lemma estimatedLength_window (i k : nat) (steps : list Step) :
  (List.length steps <= 1001)%nat ->
  (estimatedLength (skipn k (firstn i steps)) <= MAX_STORAGE_SIZE)%Z.
Proof.
  intros H. unfold estimatedLength, MAX_STORAGE_SIZE.
  rewrite length_skipn, length_firstn. lia.
Qed.

(** C3 on 1001 clicks on 1001 buttons. *)
Lemma C3_count_cap_witness :
  List.length clicks1001 = 1001%nat /\
  Spec.pairwiseDistinct clicks1001 = true /\
  (forall i k,
     (estimatedLength (skipn k (firstn i (map (compressIfPresent okPlatform) clicks1001)))
      <= MAX_STORAGE_SIZE)%Z) /\
  current (snd (addSteps estimatedLength okPlatform clicks1001 emptyWorld)) =
    map (compressIfPresent okPlatform) (tl clicks1001) /\
  List.length (current (snd (addSteps estimatedLength okPlatform clicks1001 emptyWorld)))
    = 1000%nat.
Proof.
  assert (Hlen : List.length clicks1001 = 1001%nat) by (vm_compute; reflexivity).
  assert (Hd : Spec.pairwiseDistinct clicks1001 = true) by (vm_compute; reflexivity).
  assert (Hb : forall i k,
     (estimatedLength (skipn k (firstn i (map (compressIfPresent okPlatform) clicks1001)))
      <= MAX_STORAGE_SIZE)%Z).
  { intros i k. apply estimatedLength_window. rewrite length_map, Hlen. lia. }
  split; [exact Hlen|]. split; [exact Hd|]. split; [exact Hb|].
  exact (proj2 (proj2 (proj2 C3_count_cap_oldest_first))
           estimatedLength okPlatform clicks1001 Hlen Hd Hb).
Defined.

(** *** Over the byte budget *)

Lemma length_letters (n : nat) : String.length (letters n) = n.
Proof. induction n as [|n IH]; cbn [letters String.length]; congruence. Qed.

Lemma typedAt_distinct (i j : nat) :
  i <> j -> duplicateOf (typedAt j) (typedAt i) = false.
Proof.
  intros Hij. unfold duplicateOf. cbn [time typedAt]. cbv zeta.
  destruct (Z.leb_spec (Z.abs (1000 * Z.of_nat i - 1000 * Z.of_nat j)) 100) as [H|_];
    [lia|].
  destruct (Z.leb_spec (Z.abs (1000 * Z.of_nat i - 1000 * Z.of_nat j)) 25) as [H|_];
    [lia|].
  cbn [andb].
  repeat match goal with |- context [if ?b then _ else _] => destruct b end;
    reflexivity.
Qed.

Lemma pairwiseDistinct_typedAt (n : nat) :
  forall a, Spec.pairwiseDistinct (map typedAt (seq a n)) = true.
Proof.
  induction n as [|n IH]; intros a; [reflexivity|].
  cbn [seq map Spec.pairwiseDistinct]. rewrite IH, andb_true_r.
  apply forallb_forall. intros b Hb.
  apply in_map_iff in Hb as (j & <- & Hj). apply in_seq in Hj.
  rewrite typedAt_distinct; [reflexivity | lia].
Qed.

(** The steps of the sequence carry no image, and a value of 60000
    characters each. *)
Lemma compressIfPresent_longInputs (P : Codec.Platform) :
  map (compressIfPresent P) longInputs = longInputs.
Proof.
  unfold longInputs. rewrite map_map. apply map_ext. reflexivity.
Qed.

Lemma valueLength_longInputs (log : list Step) :
  incl log longInputs ->
  valueLength log = (2 + 60000 * Z.of_nat (List.length log))%Z.
Proof.
  unfold valueLength. intros Hin. f_equal.
  induction log as [|s log IH]; [reflexivity|].
  cbn [fold_right List.length]. rewrite IH by (intros a Ha; apply Hin; now right).
  assert (Hs : In s longInputs) by (apply Hin; now left).
  apply in_map_iff in Hs as (i & <- & _).
  change (metaValue (typedAt i)) with (Some longText).
  unfold longText. rewrite length_letters. lia.
Qed.

(** C3 fails over the byte budget: 1001 pairwise non-duplicate [input]
    steps with a value of 60000 characters each, appended one by one to an
    empty log on a storage that accepts every call, leave fewer than 1000
    steps, and so not the 2nd to the 1001st of them, whatever the
    serializer as long as it writes the values in full: [storeSteps] drops
    the oldest tenth of a log of more than 50MB until it fits. *)
Lemma C3_byte_budget_counterexample :
  List.length longInputs = 1001%nat /\
  Spec.pairwiseDistinct longInputs = true /\
  (forall json_length : list Step -> Z,
     (forall steps, (valueLength steps <= json_length steps)%Z) ->
     (storedLength (snd (addSteps json_length okPlatform longInputs emptyWorld))
      < 1000)%nat /\
     current (snd (addSteps json_length okPlatform longInputs emptyWorld)) <>
       map (compressIfPresent okPlatform) (tl longInputs)).
Proof.
  assert (Hlen : List.length longInputs = 1001%nat).
  { unfold longInputs. now rewrite length_map, length_seq. }
  split; [exact Hlen|]. split; [apply pairwiseDistinct_typedAt|].
  intros json_length Hjson.
  assert (Hne : longInputs <> []) by (intros E; rewrite E in Hlen; discriminate).
  destruct (@addSteps_within_budget json_length okPlatform longInputs emptyWorld
              eq_refl Hne) as (_ & log & Hs & Hb & Hi).
  rewrite compressIfPresent_longInputs in Hi. cbn [current emptyWorld stored app] in Hi.
  assert (Hshort : (List.length log < 1000)%nat).
  { destruct Hb as [Hb | Hb]; [|lia].
    pose proof (Hjson log) as Hv. rewrite (valueLength_longInputs Hi) in Hv.
    unfold MAX_STORAGE_SIZE in Hb. lia. }
  unfold storedLength, current. rewrite Hs.
  split; [exact Hshort|].
  intros E. rewrite E, length_map in Hshort.
  destruct longInputs; cbn [tl List.length] in *; [discriminate | lia].
Qed.

End CountCapClaim.

(** ** Submit and screenshot steps *)

Section ExemptKinds.

Import JsString Store Examples.

(** C2, as amended: a submit or screenshot Step is not exempt from the
    exact-duplicate rule. It is suppressed exactly when a Step of the log
    (once a full log has lost its oldest entry) is within 100ms of it with
    the same selector, text, action and meta value; the 25ms rapid-click
    rule never suppresses it. *)
Theorem C2_submit_screenshot_exact_rule_only (steps : list Step) (newStep : Step) :
  Spec.exemptKind newStep ->
  (suppressed steps newStep = true <->
   exists existing, In existing (makeRoom steps) /\
                    Spec.exactDuplicate existing newStep).
Proof.
  intros Hkind.
  assert (Hnc : metaAction newStep <> Some "click"%string).
  { destruct Hkind as [H | [_ H]]; [rewrite H; discriminate | exact H]. }
  unfold suppressed. rewrite isDuplicate_spec. unfold Spec.matchesExisting.
  split.
  - intros (s & Hin & [H | H]); [now exists s|].
    destruct H as (_ & _ & _ & H). contradiction.
  - intros (s & Hin & H). exists s. auto.
Qed.

(** C2's theorem on two submissions of the same form, 50ms apart. *)
Lemma C2_submit_witness :
  Spec.exemptKind secondSubmit /\
  (suppressed [firstSubmit] secondSubmit = true <->
   exists existing, In existing (makeRoom [firstSubmit]) /\
                    Spec.exactDuplicate existing secondSubmit).
Proof.
  split; [left; reflexivity|].
  apply (@C2_submit_screenshot_exact_rule_only [firstSubmit] secondSubmit).
  left. reflexivity.
Defined.

(** C2 fails: the second of two submissions of the same form 50ms apart
    is suppressed, and so is the second of two screenshot steps 40ms
    apart; [addStep] leaves the log with the first one only. *)
Lemma C2_submit_suppressed_counterexample :
  (Spec.exemptKind secondSubmit /\
   suppressed [firstSubmit] secondSubmit = true /\
   stored (snd (addStep estimatedLength okPlatform secondSubmit
                  {| stored := Some [firstSubmit]; faults := []; calls := [] |}))
     = Some [firstSubmit]) /\
  (Spec.exemptKind (screenshotAt 40) /\
   suppressed [screenshotAt 0] (screenshotAt 40) = true /\
   stored (snd (addStep estimatedLength okPlatform (screenshotAt 40)
                  {| stored := Some [screenshotAt 0]; faults := []; calls := [] |}))
     = Some [screenshotAt 0]).
Proof.
  split; (split; [|split; vm_compute; reflexivity]).
  - left. reflexivity.
  - right. split; [reflexivity | discriminate].
Qed.

(** The full log of the counterexample to C1, in the storage: [addStep]
    leaves 1000 steps, the repeated click the newest of them and the click
    it repeats gone. *)
Lemma fullLog_repeated_click_stored :
  stored (snd (addStep estimatedLength okPlatform repeatedLogin
                 {| stored := Some fullLog; faults := []; calls := [] |}))
    = Some (tl fullLog ++ [repeatedLogin])%list.
Proof. vm_compute. reflexivity. Qed.

End ExemptKinds.

(** ** Redaction *)

Section Redaction.

Import JsString Redactor.

Lemma length_trimStart (s : string) :
  (String.length (trimStart s) <= String.length s)%nat.
Proof.
  induction s as [|c r IH]; simpl; [lia|].
  destruct (is_space c); simpl; lia.
Qed.

Lemma length_trimEnd (s : string) :
  (String.length (trimEnd s) <= String.length s)%nat.
Proof.
  induction s as [|c r IH]; simpl; [lia|].
  destruct (trimEnd r); [destruct (is_space c)|]; simpl in *; lia.
Qed.

Lemma length_trim (s : string) :
  (String.length (trim s) <= String.length s)%nat.
Proof.
  unfold trim. etransitivity; [apply length_trimEnd | apply length_trimStart].
Qed.

(** [getSafeText] answers the marker for an element whose identifier
    matches the pattern, whatever the value. *)
Lemma getSafeText_sensitive (element : Element) (rawValue : string) :
  SENSITIVE_PATTERNS (fieldIdentifier element) = true ->
  getSafeText (Some element) rawValue = REDACTED.
Proof. intros H. unfold getSafeText. now rewrite H. Qed.

(** *** Values of fields that are not sensitive *)

Lemma trimStart_noLeadingSpace (s : string) : noLeadingSpace (trimStart s).
Proof.
  induction s as [|c r IH]; simpl; auto.
  destruct (is_space c) eqn:E; simpl; auto.
Qed.

Lemma trimEnd_noLeadingSpace (s : string) :
  noLeadingSpace s -> noLeadingSpace (trimEnd s).
Proof.
  destruct s as [|c r]; simpl; auto. intros H.
  destruct (trimEnd r); [rewrite H|]; simpl; auto.
Qed.

Lemma trimStart_id (s : string) : noLeadingSpace s -> trimStart s = s.
Proof. destruct s as [|c r]; simpl; auto. now intros ->. Qed.

Lemma trimEnd_idempotent (s : string) : trimEnd (trimEnd s) = trimEnd s.
Proof.
  induction s as [|c r IH]; simpl; auto.
  destruct (trimEnd r) as [|d r'] eqn:E.
  - destruct (is_space c) eqn:Ec; simpl; auto. now rewrite Ec.
  - cbn [trimEnd] in *. now rewrite IH.
Qed.

Lemma trim_idempotent (s : string) : trim (trim s) = trim s.
Proof.
  unfold trim.
  rewrite trimStart_id by apply trimEnd_noLeadingSpace, trimStart_noLeadingSpace.
  apply trimEnd_idempotent.
Qed.

Lemma isFormTag_truthy (tag : string) : isFormTag tag = true -> truthy tag = true.
Proof. now destruct tag. Qed.

(** C8, as amended: for an identifier that is not sensitive, [getSafeText]
    - on an element that is not a form control, returns a text of more
      than 100 characters cut to its first 97 characters and an ellipsis
      (100 characters, not trimmed), and a text of at most 100 characters
      trimmed;
    - on a form control (INPUT, SELECT, TEXTAREA) with a value that is not
      blank, returns the identifier of the control, a colon, and the value
      as it is, cut to its first 77 characters and an ellipsis when it has
      more than 100 (not trimmed); with no value or a blank one, the
      identifier alone. *)
Theorem C8_plain_value_truncated_or_trimmed (element : Element) (rawValue : string) :
  SENSITIVE_PATTERNS (fieldIdentifier element) = false ->
  let text :=
    first_truthy [rawValue; value element; innerText element; textContent element;
                  alt element; title element] EmptyString in
  let identifier :=
    first_truthy [placeholder element; name element; id element; type element]
                 "field" in
  let output := getSafeText (Some element) rawValue in
  (isFormTag (tagName element) = false ->
   ((MAX_INPUT_LENGTH < String.length text)%nat ->
    output = (slice0 97 text ++ "...")%string /\ String.length output = 100%nat) /\
   ((String.length text <= MAX_INPUT_LENGTH)%nat ->
    output = trim text /\ Spec.trimmed output /\
    (String.length output <= MAX_INPUT_LENGTH)%nat)) /\
  (isFormTag (tagName element) = true ->
   (truthy rawValue && truthy (trim rawValue) = true ->
    ((MAX_INPUT_LENGTH < String.length rawValue)%nat ->
     output = (identifier ++ ": " ++ slice0 77 rawValue ++ "...")%string) /\
    ((String.length rawValue <= MAX_INPUT_LENGTH)%nat ->
     output = (identifier ++ ": " ++ rawValue)%string)) /\
   (truthy rawValue && truthy (trim rawValue) = false -> output = identifier)).
Proof.
  intros Hplain text identifier output.
  unfold output, getSafeText. rewrite Hplain. fold text. fold identifier.
  unfold MAX_INPUT_LENGTH. split.
  - intros Hform. rewrite Hform, andb_false_r. split.
    + intros Hlong.
      destruct (Nat.ltb_spec 100 (String.length text)); [|lia].
      split; [reflexivity|].
      rewrite length_append, length_slice0.
      change (String.length "...") with 3%nat. lia.
    + intros Hshort.
      destruct (Nat.ltb_spec 100 (String.length text)); [lia|].
      pose proof (length_trim text) as Ht.
      rewrite slice0_all by lia.
      split; [reflexivity|]. split; [apply trim_idempotent | lia].
  - intros Hform. rewrite Hform, (isFormTag_truthy _ Hform). cbn [andb]. split.
    + intros ->. split; intros Hlen.
      * destruct (Nat.ltb_spec 100 (String.length rawValue)); [reflexivity | lia].
      * destruct (Nat.ltb_spec 100 (String.length rawValue)); [lia | reflexivity].
    + now intros ->.
Qed.

(** C8's theorem on a short paragraph. *)
Lemma C8_paragraph_witness :
  SENSITIVE_PATTERNS (fieldIdentifier (Examples.paragraph "  Welcome back  ")) = false /\
  isFormTag (tagName (Examples.paragraph "  Welcome back  ")) = false /\
  (String.length "  Welcome back  " <= MAX_INPUT_LENGTH)%nat /\
  getSafeText (Some (Examples.paragraph "  Welcome back  ")) EmptyString =
    trim "  Welcome back  ".
Proof.
  assert (Hlen : (String.length "  Welcome back  " <= MAX_INPUT_LENGTH)%nat)
    by (vm_compute; lia).
  split; [reflexivity|]. split; [reflexivity|]. split; [exact Hlen|].
  exact (proj1 (proj2 (proj1
    (@C8_plain_value_truncated_or_trimmed (Examples.paragraph "  Welcome back  ")
       EmptyString eq_refl) eq_refl) Hlen)).
Defined.

(** C8 fails: a long text that begins with a space keeps it after the
    cut, and the value of a form control is not trimmed. *)
Lemma C8_not_trimmed_counterexample :
  (SENSITIVE_PATTERNS
     (fieldIdentifier (Examples.paragraph (String " " (Examples.letters 120)))) = false /\
   ~ Spec.trimmed
       (getSafeText (Some (Examples.paragraph (String " " (Examples.letters 120))))
          EmptyString)) /\
  (SENSITIVE_PATTERNS (fieldIdentifier Examples.countrySelect) = false /\
   getSafeText (Some Examples.countrySelect) "Selected: France  " =
     "country: Selected: France  "%string /\
   ~ Spec.trimmed (getSafeText (Some Examples.countrySelect) "Selected: France  ")).
Proof.
  unfold Spec.trimmed.
  repeat split; try reflexivity; vm_compute; discriminate.
Qed.

End Redaction.

(** ** Recording in the content script *)

Section ContentFacts.

Import JsString Store Content.

Variable now : Z.
Variable href : string.
Variable actualUrl : string.

Lemma trim_empty : trim EmptyString = EmptyString.
Proof. reflexivity. Qed.

Lemma not_blank_truthy (s : string) : trim s <> EmptyString -> truthy s = true.
Proof. destruct s; [intros H; now destruct H | reflexivity]. Qed.

(** While recording is on, the [input] listener leaves two steps for a
    field with a value that is not blank: the console step of the line it
    logs, then the step it builds. *)
Lemma inputListener_recording (element : Redactor.Element) (selector' : string)
    (page : Page) :
  recording page = true ->
  existsb (String.eqb (toLowerCase (Redactor.tagName element))) ["input"; "textarea"]%string
    = true ->
  trim (Redactor.value element) <> EmptyString ->
  inputListener now href actualUrl false element selector' page =
    push (inputStep now actualUrl selector' (inputCapture element))
      (recordConsoleStep now href "log"
         ("Bug Capturer: Captured input value: " ++ trim (Redactor.value element))
         page).
Proof.
  intros Hrec Htag Hval. unfold inputListener, inputTimer. rewrite Htag. cbn [negb].
  rewrite (not_blank_truthy _ Hval).
  apply String.eqb_neq in Hval. rewrite Hval. cbn [negb andb].
  unfold consoleLog. rewrite Hrec. unfold recordStep.
  cbn [recordConsoleStep push recording negb]. rewrite Hrec. reflexivity.
Qed.




End ContentFacts.

Section ContentClaims.

Import JsString Store Content.

(** C5: the value of a sensitive field does reach the log. While recording
    is on, the [input] listener leaves two steps for a field whose name
    matches the pattern and whose value is not blank: the step it builds,
    which has the marker [[REDACTED]] for value, and before it the console
    step of the line the callback writes with [console.log], which the
    console capture of the same script records and sends to the
    background. For a value of at most 464 characters that line ends with
    the whole trimmed value. *)
Theorem C5_sensitive_value_reaches_the_log
    (now : Z) (href actualUrl : string) (element : Redactor.Element)
    (selector' : string) (page : Page) :
  recording page = true ->
  existsb (String.eqb (toLowerCase (Redactor.tagName element))) ["input"; "textarea"]%string
    = true ->
  trim (Redactor.value element) <> EmptyString ->
  (String.length (trim (Redactor.value element)) <= 464)%nat ->
  Redactor.SENSITIVE_PATTERNS (toLowerCase (inputFieldName element)) = true ->
  exists consoleStep inputStep line,
    steps (inputListener now href actualUrl false element selector' page) =
      (steps page ++ [consoleStep; inputStep])%list /\
    sent (inputListener now href actualUrl false element selector' page) =
      (sent page ++ [consoleStep; inputStep])%list /\
    metaValue inputStep = Some Redactor.REDACTED /\
    type consoleStep = Some "console"%string /\
    text consoleStep = Some line /\
    line = ("Bug Capturer: Captured input value: " ++ trim (Redactor.value element))%string /\
    ~ Spec.hidesValue line (trim (Redactor.value element)).
Proof.
  intros Hrec Htag Hval Hlen Hsens.
  rewrite (inputListener_recording now href actualUrl element selector' page Hrec Htag Hval).
  eexists. eexists. eexists.
  cbn [push recordConsoleStep steps sent].
  split; [now rewrite <- app_assoc|]. split; [now rewrite <- app_assoc|].
  split.
  { unfold metaValue. cbn [meta inputStep value inputCapture displayValue].
    now rewrite Hsens. }
  split; [reflexivity|]. split; [reflexivity|].
  assert (Hall : slice0 500
            ("Bug Capturer: Captured input value: " ++ trim (Redactor.value element)) =
          ("Bug Capturer: Captured input value: " ++ trim (Redactor.value element))%string).
  { apply slice0_all. rewrite length_append. cbn [String.length]. lia. }
  split; [exact Hall|].
  unfold Spec.hidesValue. rewrite Hall, includes_append_right. discriminate.
Qed.

(** C5's theorem on the password field of a login form, in which
    [hunter2] was typed: the log gets a console step that reads
    [Bug Capturer: Captured input value: hunter2]. *)
Lemma C5_password_field_witness :
  exists consoleStep inputStep,
    steps (inputListener 0 "https://example.test/login" "https://example.test/login"
             false Examples.passwordField "#pw"
             {| recording := true; steps := []; sent := [] |}) =
      [consoleStep; inputStep] /\
    metaValue inputStep = Some Redactor.REDACTED /\
    text consoleStep = Some "Bug Capturer: Captured input value: hunter2"%string /\
    ~ Spec.hidesValue "Bug Capturer: Captured input value: hunter2" "hunter2".
Proof.
  destruct (@C5_sensitive_value_reaches_the_log
              0 "https://example.test/login" "https://example.test/login"
              Examples.passwordField "#pw"
              {| recording := true; steps := []; sent := [] |}
              eq_refl eq_refl ltac:(discriminate) ltac:(vm_compute; lia) eq_refl)
    as (consoleStep & inputStep & line & Hsteps & _ & Hvalue & _ & Htext & Hline & Hleak).
  exists consoleStep, inputStep.
  split; [exact Hsteps|]. split; [exact Hvalue|].
  rewrite Hline in Htext, Hleak. split; [exact Htext | exact Hleak].
Defined.

(** The two steps of the password field, sent one after the other to the
    background, are both stored by [addStep]: the log holds the password. *)
Lemma password_reaches_storage :
  let page :=
    inputListener 0 "https://example.test/login" "https://example.test/login"
      false Examples.passwordField "#pw"
      {| recording := true; steps := []; sent := [] |} in
  map text (sent page) =
    [Some "Bug Capturer: Captured input value: hunter2"%string; Some "Password"%string] /\
  stored (snd (addSteps Examples.estimatedLength Examples.okPlatform (sent page)
                 emptyWorld)) = Some (sent page).
Proof. split; vm_compute; reflexivity. Qed.

End ContentClaims.

(** ** Cropping *)

Section Cropping.

Import JsString Codec Crop.
Local Open Scope Z_scope.

Variable P : Platform.

(** The clamp along one axis: the offset [a] and extent [w] asked for, on
    an axis of [W] pixels. *)
Lemma clamp_axis (a w W : Z) :
  1 <= W ->
  0 <= Z.max 0 (Z.min a (W - 1)) /\
  1 <= Z.max 1 (if W <? Z.max 0 (Z.min a (W - 1)) + Z.max 1 (Z.min w (W - Z.max 0 a))
                then W - Z.max 0 (Z.min a (W - 1))
                else Z.max 1 (Z.min w (W - Z.max 0 a))) /\
  Z.max 0 (Z.min a (W - 1)) +
  Z.max 1 (if W <? Z.max 0 (Z.min a (W - 1)) + Z.max 1 (Z.min w (W - Z.max 0 a))
           then W - Z.max 0 (Z.min a (W - 1))
           else Z.max 1 (Z.min w (W - Z.max 0 a))) <= W.
Proof.
  intros HW.
  destruct (Z.ltb_spec W (Z.max 0 (Z.min a (W - 1)) + Z.max 1 (Z.min w (W - Z.max 0 a))));
    lia.
Qed.

(** On an image that has pixels, the clamped rectangle lies inside it. *)
Lemma clampArea_within (imageBitmap : ImageBitmap) (area : Area) :
  1 <= imageWidth imageBitmap -> 1 <= imageHeight imageBitmap ->
  withinImage imageBitmap (clampArea imageBitmap area).
Proof.
  intros HW HH. unfold withinImage, clampArea. cbv zeta. cbn [x y width height].
  destruct (clamp_axis (x area) (width area) HW) as (Hx & Hw & HxW).
  destruct (clamp_axis (y area) (height area) HH) as (Hy & Hh & HyH).
  repeat split; assumption.
Qed.

(** The clamp leaves a rectangle that is inside the image as it is. *)
Lemma clampArea_inside (imageBitmap : ImageBitmap) (area : Area) :
  withinImage imageBitmap area -> clampArea imageBitmap area = area.
Proof.
  unfold withinImage, clampArea. destruct area as [ax ay aw ah].
  cbv zeta. cbn [x y width height]. intros (Hx & Hy & Hw & Hh & HxW & HyH).
  replace (Z.max 0 (Z.min ax (imageWidth imageBitmap - 1))) with ax by lia.
  replace (Z.max 0 (Z.min ay (imageHeight imageBitmap - 1))) with ay by lia.
  replace (Z.max 1 (Z.min aw (imageWidth imageBitmap - Z.max 0 ax))) with aw by lia.
  replace (Z.max 1 (Z.min ah (imageHeight imageBitmap - Z.max 0 ay))) with ah by lia.
  repeat match goal with
         | |- context [(?a <? ?b)] => destruct (Z.ltb_spec a b); [lia|]
         end.
  f_equal; lia.
Qed.

(** What a successful crop has drawn: the clamped rectangle of the image
    the platform decoded, on a canvas of its size. *)
Lemma crop_resolved (dataURL : string) (area : Area) (canvas : Canvas) (result : string) :
  cropScreenshotToArea P dataURL (Some area) = Resolved (canvas, result) ->
  sourceRect canvas = clampArea (sourceImage canvas) area /\
  canvasWidth canvas = width (sourceRect canvas) /\
  canvasHeight canvas = height (sourceRect canvas).
Proof.
  unfold cropScreenshotToArea.
  repeat match goal with
         | |- context [match ?c with _ => _ end] =>
             destruct c eqn:?; try discriminate
         end.
  intros [= <- _]. cbn. auto.
Qed.

(** C10: with a data URL (a string that is not empty), a crop rectangle
    whose [x] is 0 or whose [y] is 0 is rejected with the error
    [Invalid area coordinates provided for cropping], before the image is
    looked at, also when the rectangle lies inside the image. *)
Theorem C10_crop_at_left_or_top_edge_rejected (dataURL : string) (area : Area) :
  truthy dataURL = true ->
  x area = 0 \/ y area = 0 ->
  cropScreenshotToArea P dataURL (Some area) =
    Rejected "Invalid area coordinates provided for cropping"%string.
Proof.
  intros Hurl Hedge. unfold cropScreenshotToArea, truthyNumber. rewrite Hurl.
  cbn [negb]. destruct Hedge as [-> | ->]; cbn [Z.eqb negb orb];
    [reflexivity | now rewrite orb_true_r].
Qed.

(** C6, as amended: the source rectangle of every canvas the crop
    produces lies inside the source image; a rectangle of zero width or
    height is rejected with the error
    [Invalid area coordinates provided for cropping]; a negative width or
    height is not rejected by that check: the clamp raises it to 1 pixel. *)
Theorem C6_crop_clamped_zero_rejected (dataURL : string) (area : Area) :
  (forall canvas result,
     cropScreenshotToArea P dataURL (Some area) = Resolved (canvas, result) ->
     1 <= imageWidth (sourceImage canvas) ->
     1 <= imageHeight (sourceImage canvas) ->
     withinImage (sourceImage canvas) (sourceRect canvas) /\
     canvasWidth canvas = width (sourceRect canvas) /\
     canvasHeight canvas = height (sourceRect canvas)) /\
  (truthy dataURL = true ->
   width area = 0 \/ height area = 0 ->
   cropScreenshotToArea P dataURL (Some area) =
     Rejected "Invalid area coordinates provided for cropping"%string) /\
  (forall imageBitmap,
     1 <= width (clampArea imageBitmap area) /\
     1 <= height (clampArea imageBitmap area)).
Proof.
  split; [|split].
  - intros canvas result Hcrop HW HH.
    destruct (crop_resolved _ _ Hcrop) as (Hrect & Hw & Hh).
    rewrite Hrect at 1. split; [now apply clampArea_within | auto].
  - intros Hurl Hzero. unfold cropScreenshotToArea, truthyNumber. rewrite Hurl.
    cbn [negb]. destruct Hzero as [-> | ->]; cbn [Z.eqb negb];
      now rewrite ?orb_true_r.
  - intros imageBitmap. unfold clampArea. cbv zeta. cbn [width height]. lia.
Qed.

End Cropping.

Section CroppingExamples.

Import JsString Codec Crop Examples.
Local Open Scope Z_scope.

(** C10 on a 50x50 rectangle in the top left corner of a 100x100 image. *)
Lemma C10_top_left_corner_witness :
  truthy pngDataURL = true /\
  (x topLeftCorner = 0 \/ y topLeftCorner = 0) /\
  withinImage image100 topLeftCorner /\
  cropScreenshotToArea okPlatform pngDataURL (Some topLeftCorner) =
    Rejected "Invalid area coordinates provided for cropping"%string.
Proof.
  split; [reflexivity|]. split; [left; reflexivity|].
  split; [unfold withinImage; cbn; lia|].
  apply (@C10_crop_at_left_or_top_edge_rejected okPlatform pngDataURL topLeftCorner);
    [reflexivity | left; reflexivity].
Defined.

(** C6's theorem on a rectangle that runs past the right and bottom edges
    of a 100x100 image: the canvas is cut at the edges. *)
Lemma C6_past_the_edges_witness :
  exists canvas result,
    cropScreenshotToArea okPlatform pngDataURL (Some pastTheEdges) =
      Resolved (canvas, result) /\
    sourceRect canvas = {| x := 80; y := 90; width := 20; height := 10 |} /\
    withinImage (sourceImage canvas) (sourceRect canvas).
Proof.
  eexists. eexists. split; [vm_compute; reflexivity|].
  split; [reflexivity|].
  refine (proj1 (proj1 (@C6_crop_clamped_zero_rejected okPlatform pngDataURL pastTheEdges)
                   _ _ _ _ _)).
  - vm_compute. reflexivity.
  - cbn. lia.
  - cbn. lia.
Defined.

(** C6 fails on a negative width: the rectangle is not rejected, the crop
    produces a canvas one pixel wide. *)
Lemma C6_negative_width_counterexample :
  degenerate negativeWidth /\
  exists canvas result,
    cropScreenshotToArea okPlatform pngDataURL (Some negativeWidth) =
      Resolved (canvas, result) /\
    sourceRect canvas = {| x := 10; y := 10; width := 1; height := 20 |}.
Proof.
  split; [left; cbn; lia|].
  eexists. eexists. split; [vm_compute; reflexivity | reflexivity].
Qed.

End CroppingExamples.

(** ** Compression *)

Section Compression.

Import JsString Codec.
Local Open Scope Z_scope.

Variable P : Platform.

(** An image over the 50MB estimate is returned as it is, whatever the
    platform would answer: no codec call decides the result. *)
Lemma compress_too_large_identity (dataURL : string) (quality : Q) :
  tooLargeToCompress dataURL = true ->
  compressScreenshot P dataURL quality = Resolved dataURL.
Proof.
  intros H. unfold compressScreenshot, compressTry. rewrite H.
  now destruct (highMemory P (200 * 1024 * 1024)).
Qed.

(** A failure inside the [try] block gives the original image back. *)
Lemma compress_try_failure_identity (dataURL : string) (quality : Q) (e : string) :
  compressTry P dataURL quality = Rejected e ->
  compressScreenshot P dataURL quality = Resolved dataURL.
Proof. unfold compressScreenshot. now intros ->. Qed.

(** The one failure that leaves [compressScreenshot]: the [FileReader]
    on the compressed blob. *)
Lemma compress_rejected_in_reader (dataURL : string) (quality : Q) (e : string) :
  compressScreenshot P dataURL quality = Rejected e ->
  e = "Failed to convert compressed image to data URL"%string /\
  exists compressedBlob e',
    compressTry P dataURL quality = Resolved (inr compressedBlob) /\
    readAsDataURL P compressedBlob = Rejected e'.
Proof.
  unfold compressScreenshot.
  destruct (compressTry P dataURL quality) as [[original|compressedBlob]|e0];
    try discriminate.
  destruct (readAsDataURL P compressedBlob) as [r|e'] eqn:E; [discriminate|].
  intros [= <-]. eauto.
Qed.

End Compression.

Section CompressionExamples.

Import JsString Codec Store Examples.

(** C7 at the failing input: every codec call succeeds but the
    [FileReader] that turns the compressed blob into a data URL; the
    rejection leaves [compressScreenshot] instead of the original image,
    and [addStep] then stores the screenshot step without its image. *)
Theorem C7_reader_failure_propagates :
  compressScreenshot readerFails pngDataURL (7 # 10) =
    Rejected "Failed to convert compressed image to data URL"%string /\
  dataURL (compressIfPresent readerFails screenshotWithImage) = None.
Proof. split; vm_compute; reflexivity. Qed.

End CompressionExamples.

(** ** Display order *)

Section DisplayOrder.

Import JsString Store Render.

Variable formatStepDirectly : Step -> string.

Lemma map_snd_numbered_from {A : Type} (l : list A) (n : nat) :
  map snd (combine (seq n (List.length l)) l) = l.
Proof.
  revert n; induction l as [|a l IH]; intros n; cbn; [reflexivity|].
  now rewrite IH.
Qed.

Lemma map_fst_numbered_from {A : Type} (l : list A) (n : nat) :
  map fst (combine (seq n (List.length l)) l) = seq n (List.length l).
Proof.
  revert n; induction l as [|a l IH]; intros n; cbn; [reflexivity|].
  now rewrite IH.
Qed.

Lemma map_snd_filter {A B : Type} (f : B -> bool) (l : list (A * B)) :
  map snd (List.filter (fun p => f (snd p)) l) = List.filter f (map snd l).
Proof.
  induction l as [|p l IH]; cbn; [reflexivity|].
  destruct (f (snd p)); cbn; now rewrite IH.
Qed.

Lemma filter_twice {A : Type} (f g : A -> bool) (l : list A) :
  List.filter f (List.filter g l) = List.filter (fun a => g a && f a) l.
Proof.
  induction l as [|a l IH]; cbn; [reflexivity|].
  destruct (g a); cbn; [destruct (f a)|]; now rewrite IH.
Qed.

(** The text filter keeps the steps it matches, in the order of the array. *)
Lemma filterByText_filter (filter : string) (steps shown : list Step) :
  filterByText filter steps = Some shown ->
  shown = List.filter
            (fun s => match matchesFilter filter s with
                      | Some keep => keep
                      | None => false
                      end) steps.
Proof.
  revert shown; induction steps as [|s steps IH]; cbn; intros shown.
  - now intros [= <-].
  - destruct (matchesFilter filter s) as [keep|]; [|discriminate].
    destruct (filterByText filter steps) as [rest|]; [|discriminate].
    intros [= <-]. rewrite <- (IH rest eq_refl). reflexivity.
Qed.

(** A filter keeps a chronological order that is there. *)
Lemma sortedByTime_filter (f : Step -> bool) (steps : list Step) :
  sortedByTime steps = true -> sortedByTime (List.filter f steps) = true.
Proof.
  induction steps as [|a steps IH]; cbn; [reflexivity|].
  rewrite andb_true_iff. intros [Ha Hs].
  destruct (f a); cbn; [|auto].
  rewrite (IH Hs), andb_true_r.
  rewrite forallb_forall in *. intros b Hb.
  apply Ha. apply filter_In in Hb. tauto.
Qed.

Lemma filteredSteps_storage_order (steps shown : list Step) (filter : string) :
  filteredSteps steps filter = Some shown ->
  shown = List.filter (popupKeeps filter) steps.
Proof.
  unfold filteredSteps, popupKeeps. destruct (truthy filter); cbn [negb orb].
  - intros H. rewrite (filterByText_filter _ _ H). apply filter_twice.
  - intros [= <-]. apply filter_ext. intros s. now rewrite andb_true_r.
Qed.

Lemma rtfSteps_storage_order (steps : list Step) :
  map snd (rtfSteps steps) = List.filter rtfKeeps steps.
Proof.
  unfold rtfSteps, numbered, uiSteps, rtfKeeps.
  rewrite (map_snd_filter
             (fun s => match stepDescription s with Some _ => true | None => false end)).
  rewrite map_snd_numbered_from. apply filter_twice.
Qed.

Lemma rtfStepLines_numbers (steps : list Step) :
  map fst (rtfStepLines steps) = map fst (rtfSteps steps).
Proof.
  unfold rtfStepLines, rtfSteps.
  induction (numbered (uiSteps steps)) as [|p l IH]; cbn; [reflexivity|].
  destruct (stepDescription (snd p)); cbn; now rewrite IH.
Qed.

(** C9, as amended: the renderings show the Steps in the storage order of
    the log array and never sort them. The popup shows the Steps that pass
    its filters, numbered from 1 in array order; the RTF report lists the
    UI Steps that have a description, in array order, each under the
    number of its place among the UI Steps. The display is chronological
    when the array is. *)
Theorem C9_display_in_storage_order (steps : list Step) (filter : string) :
  (forall shown,
     filteredSteps steps filter = Some shown ->
     shown = List.filter (popupKeeps filter) steps /\
     renderSteps formatStepDirectly steps filter =
       Some (numbered (map formatStepDirectly shown)) /\
     map fst (numbered (map formatStepDirectly shown)) =
       seq 1 (List.length shown) /\
     (sortedByTime steps = true -> Spec.displayedByTime shown)) /\
  map snd (rtfSteps steps) = List.filter rtfKeeps steps /\
  map fst (rtfStepLines steps) = map fst (rtfSteps steps) /\
  (sortedByTime steps = true -> Spec.displayedByTime (map snd (rtfSteps steps))).
Proof.
  split; [|split; [|split]].
  - intros shown H. pose proof (filteredSteps_storage_order _ _ H) as E.
    split; [exact E|]. split; [|split].
    + unfold renderSteps. now rewrite H.
    + unfold numbered. now rewrite map_fst_numbered_from, length_map.
    + intros Hs. rewrite E. now apply sortedByTime_filter.
  - apply rtfSteps_storage_order.
  - apply rtfStepLines_numbers.
  - intros Hs. rewrite rtfSteps_storage_order. now apply sortedByTime_filter.
Qed.

End DisplayOrder.

Section DisplayOrderExamples.

Import JsString Store Render Examples.

(** C9 fails: a log that holds the step of time 200 before the step of
    time 100 is shown in that order, by the popup and in the RTF report. *)
Lemma C9_storage_order_counterexample :
  (exists shown,
     filteredSteps lateThenEarly EmptyString = Some shown /\
     map time shown = [200; 100]%Z /\
     ~ Spec.displayedByTime shown) /\
  rtfStepLines lateThenEarly =
    [(1%nat, "User clicked on Save."%string); (2%nat, "User clicked on Open."%string)] /\
  map time (map snd (rtfSteps lateThenEarly)) = [200; 100]%Z /\
  ~ Spec.displayedByTime (map snd (rtfSteps lateThenEarly)).
Proof.
  unfold Spec.displayedByTime.
  split; [eexists; split; [reflexivity|]; split; [reflexivity|]|];
    repeat split; try reflexivity; vm_compute; discriminate.
Qed.

End DisplayOrderExamples.

Section DisplayOrderWitness.

Import JsString Store Render Examples.

(** C9's theorem on a log in chronological order. *)
Lemma C9_chronological_witness :
  sortedByTime chronological = true /\
  filteredSteps chronological EmptyString =
    Some [recorded "click" "#open" "Open" 100; recorded "click" "#save" "Save" 200] /\
  Spec.displayedByTime
    [recorded "click" "#open" "Open" 100; recorded "click" "#save" "Save" 200] /\
  Spec.displayedByTime (map snd (rtfSteps chronological)).
Proof.
  pose proof (@C9_display_in_storage_order (fun s => Render.opt_or (text s) EmptyString)
                chronological EmptyString) as (Hpopup & _ & _ & Hrtf).
  split; [reflexivity|]. split; [reflexivity|].
  split; [|exact (Hrtf eq_refl)].
  exact (proj2 (proj2 (proj2 (Hpopup _ eq_refl))) eq_refl).
Defined.

End DisplayOrderWitness.

(** * Further properties of the code *)

(** ** The persistence gateway *)

Section GatewayFacts.

Import JsString Store.

Variable json_length : list Step -> Z.
Variable P : Codec.Platform.

(** The byte cap is not applied to a log of at most 10 steps. *)
Lemma trimToBudget_short (steps : list Step) :
  (List.length steps <= 10)%nat -> trimToBudget json_length steps = steps.
Proof.
  intros H. unfold trimToBudget.
  destruct (MAX_STORAGE_SIZE <? json_length steps)%Z; [|reflexivity].
  destruct (List.length steps) as [|fuel] eqn:E; [reflexivity|].
  cbn [trimLoop]. rewrite E.
  destruct (Nat.ltb_spec 10 (S fuel)) as [Hlong|_]; [lia|].
  now rewrite andb_false_r.
Qed.

(** X1: on a storage that accepts the write, [storeSteps] leaves under the
    key the log it was given less some of its oldest entries, and what it
    leaves is within the 50MB budget or has at most 10 entries; a log
    within the budget, or of at most 10 steps whatever its size, is written
    as it is. *)
Theorem X1_storeSteps_byte_budget (steps : list Step) (w : World) :
  faults w = [] ->
  let w' := snd (storeSteps json_length steps w) in
  (exists k, stored w' = Some (skipn k steps) /\
             ((json_length (skipn k steps) <= MAX_STORAGE_SIZE)%Z \/
              (List.length (skipn k steps) <= 10)%nat)) /\
  ((json_length steps <= MAX_STORAGE_SIZE)%Z -> stored w' = Some steps) /\
  ((List.length steps <= 10)%nat -> stored w' = Some steps).
Proof.
  intros Hf w'. unfold w'. rewrite storeSteps_quiet by exact Hf.
  cbn [snd stored]. split; [|split].
  - unfold trimToBudget.
    destruct (Z.ltb_spec MAX_STORAGE_SIZE (json_length steps)) as [Hbig|Hok].
    + destruct (trimLoop_suffix json_length (List.length steps) steps) as [k Hk].
      exists k. split; [now rewrite Hk|]. rewrite <- Hk.
      apply trimLoop_done. lia.
    + exists 0%nat. cbn [skipn]. auto.
  - intros H. now rewrite trimToBudget_within.
  - intros H. now rewrite trimToBudget_short.
Qed.

(** X2: when the write is rejected with an error that is not a quota
    error, [storeSteps] makes no other storage call: the stored log stays
    as it was, nothing is removed, and the answer is [{ ok: false, error }]
    with the message of the rejection. *)
Theorem X2_storeSteps_other_failure_keeps_log
    (steps : list Step) (w : World) (msg : string) (rest : list (option string)) :
  faults w = Some msg :: rest ->
  includes msg "QUOTA_EXCEEDED" = false ->
  let result := storeSteps json_length steps w in
  fst result = {| ok := false; error := Some msg |} /\
  stored (snd result) = stored w /\
  faults (snd result) = rest /\
  calls (snd result) = calls w ++ [StorageSet (trimToBudget json_length steps)].
Proof.
  intros Hf Hq. unfold storeSteps, bind, storageSet, storageCall. rewrite Hf.
  cbn. rewrite Hq, andb_false_r. cbn. auto.
Qed.

(** X3: what [storeSteps] wrote is what [getStoredSteps] reads back, for a
    log of at most 1000 steps within the byte budget on a storage that
    accepts the calls. *)
Theorem X3_store_then_read (steps : list Step) (w : World) :
  faults w = [] ->
  (List.length steps <= MAX_STEPS)%nat ->
  (json_length steps <= MAX_STORAGE_SIZE)%Z ->
  fst (storeSteps json_length steps w) = {| ok := true; error := None |} /\
  fst (getStoredSteps json_length (snd (storeSteps json_length steps w))) = steps.
Proof.
  intros Hf Hlen Hbudget. rewrite storeSteps_quiet by exact Hf.
  rewrite trimToBudget_within by exact Hbudget. cbn [fst snd].
  split; [reflexivity|].
  rewrite getStoredSteps_quiet; [reflexivity | reflexivity | exact Hlen].
Qed.

(** X4: after [clearSteps] on a storage that accepts the calls the log
    reads back empty; when the removal is rejected the log stays and the
    answer carries the error. *)
Theorem X4_clear_then_read (w : World) :
  (faults w = [] ->
   fst (clearSteps w) = {| ok := true; error := None |} /\
   stored (snd (clearSteps w)) = None /\
   fst (getStoredSteps json_length (snd (clearSteps w))) = []) /\
  (forall msg rest,
     faults w = Some msg :: rest ->
     fst (clearSteps w) = {| ok := false; error := Some msg |} /\
     stored (snd (clearSteps w)) = stored w).
Proof.
  split.
  - intros Hf. unfold clearSteps, bind, storageRemove.
    rewrite storageCall_quiet by exact Hf. cbn [fst snd ret stored].
    split; [reflexivity|]. split; [reflexivity|].
    rewrite getStoredSteps_quiet; [reflexivity | reflexivity |].
    unfold storedLength, current, MAX_STEPS. cbn. lia.
  - intros msg rest Hf. unfold clearSteps, bind, storageRemove, storageCall.
    rewrite Hf. cbn. auto.
Qed.

(** X5: [getStoredSteps] hands out the last 1000 entries of the stored log
    when the read resolves and the empty log when it is rejected, which
    leaves the storage alone; on a storage that accepts the calls, reading
    a log of more than 1000 entries rewrites it cut to its last 1000. *)
Theorem X5_getStoredSteps_last_thousand (w : World) :
  fst (getStoredSteps json_length w) =
    match faults w with
    | Some _ :: _ => []
    | _ => lastN MAX_STEPS (current w)
    end /\
  (forall msg rest, faults w = Some msg :: rest ->
     stored (snd (getStoredSteps json_length w)) = stored w) /\
  (faults w = [] -> (MAX_STEPS < storedLength w)%nat ->
   stored (snd (getStoredSteps json_length w)) =
     Some (trimToBudget json_length (lastN MAX_STEPS (current w)))).
Proof.
  unfold storedLength, current.
  split; [|split].
  - unfold getStoredSteps, bind, storageGet, storageCall.
    destruct (faults w) as [|[msg|] rest]; cbn [fst snd ret]; try reflexivity.
    + destruct (Nat.ltb_spec MAX_STEPS
                  (List.length match stored w with Some s => s | None => [] end)).
      * match goal with
        | |- context [storeSteps json_length ?l ?w0] =>
            destruct (storeSteps json_length l w0)
        end. reflexivity.
      * cbn [fst]. now rewrite lastN_short.
    + destruct (Nat.ltb_spec MAX_STEPS
                  (List.length match stored w with Some s => s | None => [] end)).
      * match goal with
        | |- context [storeSteps json_length ?l ?w0] =>
            destruct (storeSteps json_length l w0)
        end. reflexivity.
      * cbn [fst]. now rewrite lastN_short.
  - intros msg rest Hf. unfold getStoredSteps, bind, storageGet, storageCall.
    rewrite Hf. reflexivity.
  - intros Hf Hlong. unfold getStoredSteps, bind, storageGet.
    rewrite storageCall_quiet by exact Hf.
    destruct (Nat.ltb_spec MAX_STEPS
                (List.length match stored w with Some s => s | None => [] end));
      [|lia].
    rewrite storeSteps_quiet by reflexivity. reflexivity.
Qed.

End GatewayFacts.

Section AppendFacts.

Import JsString Store.
Local Open Scope Z_scope.

Variable json_length : list Step -> Z.
Variable P : Codec.Platform.

Lemma strict_eq_refl (a : option string) : strict_eq a a = true.
Proof. now apply strict_eq_spec. Qed.

Lemma strict_eq_sym (a b : option string) : strict_eq a b = strict_eq b a.
Proof.
  apply Bool.eq_iff_eq_true. rewrite !strict_eq_spec. split; congruence.
Qed.

(** X6: when the read of the log is rejected and the write that follows is
    accepted, [addStep] answers [ok] and leaves under the key the new step
    alone: the log that was stored is overwritten. *)
Theorem X6_addStep_after_failed_read (newStep : Step) (w : World) (msg : string) :
  faults w = [Some msg] ->
  fst (addStep json_length P newStep w) = {| ok := true; error := None |} /\
  stored (snd (addStep json_length P newStep w)) =
    Some [compressIfPresent P newStep].
Proof.
  intros Hf. unfold addStep, bind.
  assert (Hread : getStoredSteps json_length w =
                  ([], {| stored := stored w; faults := [];
                          calls := calls w ++ [StorageGet] |})).
  { unfold getStoredSteps, bind, storageGet, storageCall. now rewrite Hf. }
  rewrite Hread. rewrite storeSteps_quiet by reflexivity.
  cbn [fst snd stored]. split; [reflexivity|].
  f_equal. apply trimToBudget_short. cbn. lia.
Qed.

(** X7: a duplicate that arrives on a full log (1000 steps) still costs
    the log its oldest entry: on a storage that accepts the calls, nothing
    is pushed and [addStep] leaves the log without its first step, 999
    steps. *)
Theorem X7_duplicate_on_full_log_evicts (newStep : Step) (w : World) :
  faults w = [] ->
  storedLength w = MAX_STEPS ->
  suppressed (current w) newStep = true ->
  (json_length (tl (current w)) <= MAX_STORAGE_SIZE)%Z ->
  stored (snd (addStep json_length P newStep w)) = Some (tl (current w)) /\
  List.length (tl (current w)) = 999%nat.
Proof.
  intros Hf Hlen Hs Hbudget. unfold storedLength in Hlen.
  assert (Hroom : makeRoom (current w) = tl (current w)).
  { unfold makeRoom. rewrite Hlen, Nat.leb_refl. reflexivity. }
  rewrite addStep_suppressed.
  rewrite getStoredSteps_quiet by (unfold storedLength; auto; lia).
  rewrite Hs, Hroom. rewrite storeSteps_quiet by reflexivity.
  rewrite trimToBudget_within by exact Hbudget. cbn [snd stored].
  split; [reflexivity|].
  destruct (current w) as [|a steps]; [discriminate Hlen|].
  cbn [tl List.length] in *. unfold MAX_STEPS in Hlen. lia.
Qed.

Lemma duplicateOf_refl (a : Step) : duplicateOf a a = true.
Proof.
  unfold duplicateOf. rewrite Z.sub_diag. cbn [Z.abs Z.leb Z.compare].
  now rewrite !strict_eq_refl.
Qed.

Lemma duplicateOf_sym (a b : Step) : duplicateOf a b = duplicateOf b a.
Proof.
  unfold duplicateOf.
  replace (Z.abs (time b - time a)) with (Z.abs (time a - time b)) by lia.
  rewrite (strict_eq_sym (selector b)), (strict_eq_sym (text b)),
    (strict_eq_sym (metaAction b) (metaAction a)), (strict_eq_sym (metaValue b)).
  destruct (_ && _ && _ && _ && _); [reflexivity|].
  destruct (strict_eq (metaAction a) (metaAction b)) eqn:E.
  - apply strict_eq_spec in E. rewrite E.
    repeat match goal with
           | |- context [if ?c then _ else _] => destruct c
           end; reflexivity.
  - rewrite !andb_false_r, !andb_false_l.
    repeat match goal with
           | |- context [if ?c then _ else _] => destruct c
           end; reflexivity.
Qed.

(** X8: the rule of [addStep] relates two steps whatever the order they
    arrive in, and every step is a duplicate of itself. *)
Theorem X8_duplicate_rule_symmetric (a b : Step) :
  duplicateOf a b = duplicateOf b a /\ duplicateOf a a = true.
Proof. split; [apply duplicateOf_sym | apply duplicateOf_refl]. Qed.

(** X9: on a log with room for it, appending the same step twice leaves
    what appending it once leaves. *)
Theorem X9_append_twice (steps : list Step) (newStep : Step) :
  (List.length steps + 1 < MAX_STEPS)%nat ->
  let once := pushUnlessDuplicate (makeRoom steps) newStep in
  pushUnlessDuplicate (makeRoom once) newStep = once.
Proof.
  intros Hlen once.
  assert (Hroom : makeRoom steps = steps) by (apply makeRoom_below_cap; lia).
  unfold once, pushUnlessDuplicate. rewrite Hroom.
  destruct (isDuplicate steps newStep) eqn:E.
  - now rewrite Hroom, E.
  - rewrite length_app. cbn [List.length].
    destruct (Nat.ltb_spec 1000 (List.length steps + 1));
      [unfold MAX_STEPS in Hlen; lia|].
    rewrite makeRoom_below_cap
      by (rewrite length_app; cbn [List.length]; unfold MAX_STEPS in *; lia).
    assert (Hdup : isDuplicate (steps ++ [newStep]) newStep = true).
    { unfold isDuplicate. rewrite existsb_app. cbn [existsb].
      rewrite duplicateOf_refl. now rewrite orb_true_r. }
    now rewrite Hdup.
Qed.

End AppendFacts.

Section GatewayWitnesses.

Import JsString Store Examples.

Lemma threeSteps_budget : (estimatedLength threeSteps <= MAX_STORAGE_SIZE)%Z.
Proof. vm_compute. discriminate. Qed.

Lemma X1_storeSteps_witness :
  faults emptyWorld = [] /\
  stored (snd (storeSteps estimatedLength threeSteps emptyWorld)) = Some threeSteps.
Proof.
  split; [reflexivity|].
  exact (proj1 (proj2 (@X1_storeSteps_byte_budget estimatedLength threeSteps
                         emptyWorld eq_refl)) threeSteps_budget).
Defined.

Lemma X2_storeSteps_witness :
  faults ioFailure = [Some "I/O error"%string] /\
  includes "I/O error" "QUOTA_EXCEEDED" = false /\
  stored (snd (storeSteps estimatedLength (firstn 2 threeSteps) ioFailure))
    = Some threeSteps.
Proof.
  split; [reflexivity|]. split; [reflexivity|].
  exact (proj1 (proj2 (@X2_storeSteps_other_failure_keeps_log estimatedLength
                         (firstn 2 threeSteps) ioFailure "I/O error" []
                         eq_refl eq_refl))).
Defined.

Lemma X3_store_then_read_witness :
  faults emptyWorld = [] /\
  (List.length threeSteps <= MAX_STEPS)%nat /\
  fst (getStoredSteps estimatedLength
         (snd (storeSteps estimatedLength threeSteps emptyWorld))) = threeSteps.
Proof.
  assert (Hlen : (List.length threeSteps <= MAX_STEPS)%nat)
    by (unfold MAX_STEPS; cbn; lia).
  split; [reflexivity|]. split; [exact Hlen|].
  exact (proj2 (@X3_store_then_read estimatedLength threeSteps emptyWorld
                  eq_refl Hlen threeSteps_budget)).
Defined.

Lemma X4_clear_then_read_witness :
  faults threeStepsStored = [] /\
  fst (getStoredSteps estimatedLength (snd (clearSteps threeStepsStored))) = [] /\
  stored (snd (clearSteps ioFailure)) = Some threeSteps.
Proof.
  split; [reflexivity|]. split.
  - exact (proj2 (proj2 (proj1 (X4_clear_then_read estimatedLength threeStepsStored)
                           eq_refl))).
  - exact (proj2 (proj2 (X4_clear_then_read estimatedLength ioFailure)
                    "I/O error"%string [] eq_refl)).
Defined.

Lemma X5_getStoredSteps_witness :
  faults clicks1001Stored = [] /\
  (MAX_STEPS < storedLength clicks1001Stored)%nat /\
  stored (snd (getStoredSteps estimatedLength clicks1001Stored)) =
    Some (trimToBudget estimatedLength (lastN MAX_STEPS (current clicks1001Stored))).
Proof.
  assert (Hlong : (MAX_STEPS < storedLength clicks1001Stored)%nat)
    by (vm_compute; lia).
  split; [reflexivity|]. split; [exact Hlong|].
  exact (proj2 (proj2 (X5_getStoredSteps_last_thousand estimatedLength clicks1001Stored))
           eq_refl Hlong).
Defined.

Lemma X6_addStep_witness :
  faults ioFailure = [Some "I/O error"%string] /\
  stored (snd (addStep estimatedLength okPlatform repeatedLogin ioFailure)) =
    Some [compressIfPresent okPlatform repeatedLogin].
Proof.
  split; [reflexivity|].
  exact (proj2 (@X6_addStep_after_failed_read estimatedLength okPlatform
                  repeatedLogin ioFailure "I/O error" eq_refl)).
Defined.

Lemma X7_duplicate_on_full_log_witness :
  faults fullLogStored = [] /\
  storedLength fullLogStored = MAX_STEPS /\
  suppressed (current fullLogStored) repeatedLine = true /\
  (estimatedLength (tl (current fullLogStored)) <= MAX_STORAGE_SIZE)%Z /\
  stored (snd (addStep estimatedLength okPlatform repeatedLine fullLogStored)) =
    Some (tl (current fullLogStored)).
Proof.
  assert (Hlen : storedLength fullLogStored = MAX_STEPS) by (vm_compute; reflexivity).
  assert (Hs : suppressed (current fullLogStored) repeatedLine = true)
    by (vm_compute; reflexivity).
  assert (Hb : (estimatedLength (tl (current fullLogStored)) <= MAX_STORAGE_SIZE)%Z)
    by (vm_compute; discriminate).
  split; [reflexivity|]. split; [exact Hlen|]. split; [exact Hs|]. split; [exact Hb|].
  exact (proj1 (@X7_duplicate_on_full_log_evicts estimatedLength okPlatform
                  repeatedLine fullLogStored eq_refl Hlen Hs Hb)).
Defined.

Lemma X9_append_twice_witness :
  (List.length threeSteps + 1 < MAX_STEPS)%nat /\
  pushUnlessDuplicate
    (makeRoom (pushUnlessDuplicate (makeRoom threeSteps) repeatedLogin)) repeatedLogin
  = pushUnlessDuplicate (makeRoom threeSteps) repeatedLogin.
Proof.
  assert (Hlen : (List.length threeSteps + 1 < MAX_STEPS)%nat)
    by (unfold MAX_STEPS; cbn; lia).
  split; [exact Hlen|].
  exact (@X9_append_twice threeSteps repeatedLogin Hlen).
Defined.

End GatewayWitnesses.

(** ** Screenshot lists *)

Section ShotsFacts.

Import JsString Shots.




(** *** Deduplication in the popup *)

Lemma seen_spec (i : string) (seen : list string) :
  existsb (String.eqb i) seen = true <-> In i seen.
Proof.
  rewrite existsb_exists. split.
  - intros (x & Hin & E). apply String.eqb_eq in E. now subst.
  - intros H. exists i. split; [exact H | apply String.eqb_refl].
Qed.

Lemma dedupLoop_fresh (l : list Screenshot) :
  forall seen s, In s (dedupLoop seen l) -> ~ In (identifier s) seen.
Proof.
  induction l as [|a l IH]; intros seen s; cbn [dedupLoop]; [tauto|].
  destruct (existsb (String.eqb (identifier a)) seen) eqn:E.
  - apply IH.
  - intros [<- | Hin].
    + intros H. apply seen_spec in H. congruence.
    + intros H. apply (IH _ _ Hin). now right.
Qed.

Lemma dedupLoop_NoDup (l : list Screenshot) :
  forall seen, NoDup (map identifier (dedupLoop seen l)).
Proof.
  induction l as [|a l IH]; intros seen; cbn [dedupLoop]; [constructor|].
  destruct (existsb (String.eqb (identifier a)) seen); [apply IH|].
  cbn [map]. constructor; [|apply IH].
  intros H. apply in_map_iff in H as (s & E & Hin).
  apply (dedupLoop_fresh _ _ _ Hin). left. now rewrite E.
Qed.

Lemma dedupLoop_subsequence (l : list Screenshot) :
  forall seen, Subsequence (dedupLoop seen l) l.
Proof.
  induction l as [|a l IH]; intros seen; cbn [dedupLoop]; [constructor|].
  destruct (existsb (String.eqb (identifier a)) seen); constructor; apply IH.
Qed.

Lemma dedupLoop_covers (l : list Screenshot) :
  forall seen s, In s l ->
    In (identifier s) seen \/ In (identifier s) (map identifier (dedupLoop seen l)).
Proof.
  induction l as [|a l IH]; intros seen s; cbn [dedupLoop]; [tauto|].
  destruct (existsb (String.eqb (identifier a)) seen) eqn:E.
  - intros [<- | Hin]; [left; now apply seen_spec | now apply IH].
  - intros [<- | Hin]; [right; now left|].
    destruct (IH (identifier a :: seen) s Hin) as [[<- | H] | H].
    + right. now left.
    + now left.
    + right. now right.
Qed.

Lemma dedupLoop_idempotent (l : list Screenshot) :
  forall seen, dedupLoop seen (dedupLoop seen l) = dedupLoop seen l.
Proof.
  induction l as [|a l IH]; intros seen; cbn [dedupLoop]; [reflexivity|].
  destruct (existsb (String.eqb (identifier a)) seen) eqn:E; [apply IH|].
  cbn [dedupLoop]. rewrite E. f_equal. apply IH.
Qed.

(** X11: [deduplicateScreenshots] of the popup keeps the first screenshot
    of each identifier (the data URL, else timestamp and description): no
    two of its results share one, every identifier of the input is still
    there, the results are in the order of the input, and a second pass
    changes nothing. *)
Theorem X11_popup_deduplicateScreenshots (screenshots : list Screenshot) :
  let unique := deduplicateScreenshots (Some screenshots) in
  NoDup (map identifier unique) /\
  Subsequence unique screenshots /\
  (forall s, In s screenshots -> In (identifier s) (map identifier unique)) /\
  deduplicateScreenshots (Some unique) = unique.
Proof.
  cbn [deduplicateScreenshots]. split; [apply dedupLoop_NoDup|].
  split; [apply dedupLoop_subsequence|]. split; [|apply dedupLoop_idempotent].
  intros s Hin. destruct (dedupLoop_covers _ [] _ Hin) as [[] | H]. exact H.
Qed.

(** *** Deduplication in the Word report generator *)

Lemma Subsequence_refl {A : Type} (l : list A) : Subsequence l l.
Proof. induction l; [apply Subsequence_nil | now apply Subsequence_keep]. Qed.

Lemma Subsequence_length {A : Type} (l' l : list A) :
  Subsequence l' l -> (List.length l' <= List.length l)%nat.
Proof. induction 1; cbn; lia. Qed.

Lemma Subsequence_trans {A : Type} (l1 l2 l3 : list A) :
  Subsequence l1 l2 -> Subsequence l2 l3 -> Subsequence l1 l3.
Proof.
  intros H12 H23. revert l1 H12.
  induction H23 as [|a l2 l3 H IH|a l2 l3 H IH]; intros l1 H12.
  - exact H12.
  - constructor. now apply IH.
  - inversion H12; subst; constructor; now apply IH.
Qed.

Lemma Subsequence_skipn {A : Type} (k : nat) (l : list A) : Subsequence (skipn k l) l.
Proof.
  revert l; induction k as [|k IH]; intros [|a l]; cbn [skipn];
    try apply Subsequence_refl.
  constructor. apply IH.
Qed.

Lemma Subsequence_app_head {A : Type} (h l' l : list A) :
  Subsequence l' l -> Subsequence (h ++ l') (h ++ l).
Proof. intros H. induction h; cbn; [exact H | now constructor]. Qed.

Lemma limitScreenshots_subsequence (l : list Screenshot) :
  Subsequence (limitScreenshots l) l.
Proof.
  unfold limitScreenshots. cbv zeta.
  destruct (Nat.ltb_spec 20 (List.length l)) as [H|H]; [|apply Subsequence_refl].
  rewrite <- (firstn_skipn 12 l) at 4.
  apply Subsequence_app_head.
  replace (List.length l - (20 - 12))%nat
    with ((List.length l - 20) + 12)%nat by lia.
  rewrite <- skipn_skipn. apply Subsequence_skipn.
Qed.

Lemma limitScreenshots_length (l : list Screenshot) :
  (List.length (limitScreenshots l) <= 20)%nat.
Proof.
  unfold limitScreenshots. cbv zeta.
  destruct (Nat.ltb_spec 20 (List.length l)) as [H|H]; [|exact H].
  rewrite length_app, length_firstn, length_skipn. lia.
Qed.

Lemma reportDedupLoop_subsequence (l : list Screenshot) :
  forall seen, Subsequence (reportDedupLoop seen l) l.
Proof.
  induction l as [|a l IH]; intros seen; cbn [reportDedupLoop]; [constructor|].
  destruct (tooLarge a); [constructor; apply IH|].
  destruct (existsb (String.eqb (reportIdentifier a)) seen); constructor; apply IH.
Qed.

Lemma reportDedupLoop_small (l : list Screenshot) :
  forall seen s, In s (reportDedupLoop seen l) ->
    tooLarge s = false /\ ~ In (reportIdentifier s) seen.
Proof.
  induction l as [|a l IH]; intros seen s; cbn [reportDedupLoop]; [intros []|].
  destruct (tooLarge a) eqn:Ea; [apply IH|].
  destruct (existsb (String.eqb (reportIdentifier a)) seen) eqn:E; [apply IH|].
  intros [<- | Hin].
  - split; [exact Ea|]. intros H. apply seen_spec in H. congruence.
  - destruct (IH _ _ Hin) as [Hs Hn]. split; [exact Hs|].
    intros H. apply Hn. now right.
Qed.

Lemma reportDedupLoop_NoDup (l : list Screenshot) :
  forall seen, NoDup (map reportIdentifier (reportDedupLoop seen l)).
Proof.
  induction l as [|a l IH]; intros seen; cbn [reportDedupLoop]; [constructor|].
  destruct (tooLarge a); [apply IH|].
  destruct (existsb (String.eqb (reportIdentifier a)) seen); [apply IH|].
  cbn [map]. constructor; [|apply IH].
  intros H. apply in_map_iff in H as (s & E & Hin).
  apply (reportDedupLoop_small _ _ _ Hin). left. now rewrite E.
Qed.

(** X12: [deduplicateScreenshots] of the Word report generator returns at
    most 20 screenshots, in the order of the input, none of them with a
    data URL of more than 5MB and no two with the same identifier. *)
Theorem X12_report_deduplicateScreenshots (screenshots : list Screenshot) :
  let unique := reportDeduplicateScreenshots (Some screenshots) in
  (List.length unique <= 20)%nat /\
  Subsequence unique screenshots /\
  (forall s, In s unique -> tooLarge s = false) /\
  NoDup (map reportIdentifier unique).
Proof.
  cbn [reportDeduplicateScreenshots].
  pose proof (reportDedupLoop_subsequence (limitScreenshots screenshots) []) as Hsub.
  split; [|split; [|split]].
  - etransitivity; [apply (Subsequence_length Hsub) | apply limitScreenshots_length].
  - eapply Subsequence_trans; [exact Hsub | apply limitScreenshots_subsequence].
  - intros s Hin. apply (reportDedupLoop_small _ _ _ Hin).
  - apply reportDedupLoop_NoDup.
Qed.

(** *** Counting by type *)

Section CategorizeFacts.

Variable functionSource : string -> string.

Lemma truthy_append_one (s : string) : truthy (s ++ "1") = true.
Proof. now destruct s. Qed.

Lemma increment_fits (key : string) (types : list (string * TypeValue)) :
  key <> "__proto__"%string ->
  Forall (fun entry => valueFits entry = true) types ->
  Forall (fun entry => valueFits entry = true) (increment functionSource key types).
Proof.
  intros Hkey Hfit. apply String.eqb_neq in Hkey.
  induction Hfit as [|[k v] types Hkv Hfit IH]; cbn [increment].
  - constructor; [|constructor]. unfold valueFits, firstValue. cbn [fst snd].
    rewrite Hkey. cbn [negb andb].
    destruct (inheritedFunction key); cbn [negb andb];
      [apply truthy_append_one | reflexivity].
  - destruct (String.eqb k key); constructor; auto.
    unfold valueFits in *. cbn [fst snd] in *.
    apply andb_true_iff in Hkv as [Hk Hv]. rewrite Hk. cbn [andb].
    destruct v as [n|s]; cbn [plusOne]; [exact Hv|].
    apply andb_true_iff in Hv as [Hi Hs]. rewrite Hs, Hi. apply truthy_append_one.
Qed.

Lemma lookup_fits (key : string) (v : TypeValue) (types : list (string * TypeValue)) :
  Forall (fun entry => valueFits entry = true) types ->
  lookup key types = Some v -> valueFits (key, v) = true.
Proof.
  intros Hfit. induction Hfit as [|[k v'] types Hkv Hfit IH]; cbn [lookup];
    [discriminate|].
  destruct (String.eqb k key) eqn:E; [|exact IH].
  apply String.eqb_eq in E. subst k. now intros [= <-].
Qed.

Lemma countOf_increment (key key' : string) (types : list (string * TypeValue)) :
  inheritedFunction key = false ->
  Forall (fun entry => valueFits entry = true) types ->
  countOf key (increment functionSource key' types) =
    (countOf key types + if String.eqb key' key then 1 else 0)%nat.
Proof.
  intros Hkey Hfit. unfold countOf.
  induction Hfit as [|[k v] types Hkv Hfit IH]; cbn [increment lookup].
  - destruct (String.eqb key' key) eqn:E; [|reflexivity].
    apply String.eqb_eq in E. subst key'. unfold firstValue. now rewrite Hkey.
  - destruct (String.eqb k key') eqn:E1.
    + apply String.eqb_eq in E1. subst k. cbn [lookup].
      destruct (String.eqb key' key) eqn:E2; [|lia].
      apply String.eqb_eq in E2. subst key'.
      unfold valueFits in Hkv. cbn [fst snd] in Hkv. rewrite Hkey in Hkv.
      destruct v as [n|s]; cbn [plusOne countValue]; [lia|].
      cbn [andb] in Hkv. rewrite andb_false_r in Hkv. discriminate.
    + cbn [lookup]. destruct (String.eqb k key) eqn:E2; [|exact IH].
      apply String.eqb_eq in E2. subst k. rewrite String.eqb_sym, E1. lia.
Qed.

Lemma total_increment (key : string) (types : list (string * TypeValue)) :
  Forall (fun entry => valueFits entry = true) types ->
  totalCount (increment functionSource key types) =
    (totalCount types + if inheritedFunction key then 0 else 1)%nat.
Proof.
  intros Hfit. unfold totalCount.
  induction Hfit as [|[k v] types Hkv Hfit IH]; cbn [increment].
  - unfold firstValue. now destruct (inheritedFunction key).
  - destruct (String.eqb k key) eqn:E; cbn [map snd]; unfold list_sum in *;
      cbn [fold_right]; [|rewrite IH; lia].
    apply String.eqb_eq in E. subst k.
    unfold valueFits in Hkv. cbn [fst snd] in Hkv.
    apply andb_true_iff in Hkv as [_ Hv].
    destruct v as [n|s]; cbn [plusOne countValue].
    + apply negb_true_iff in Hv. rewrite Hv. lia.
    + apply andb_true_iff in Hv as [Hi Hs]. rewrite Hi, Hs. cbn [countValue]. lia.
Qed.

(** What a run of [categorizeScreenshots] adds to the object it started
    from. *)
Lemma categorize_from (screenshots : list Screenshot) :
  forall types : list (string * TypeValue),
    Forall (fun entry => valueFits entry = true) types ->
    let result :=
      fold_left (fun types s => assign functionSource (typeKey s) types)
                screenshots types in
    Forall (fun entry => valueFits entry = true) result /\
    (forall key, inherited key = false ->
       countOf key result =
         (countOf key types +
          List.length (List.filter (fun s => String.eqb (typeKey s) key) screenshots))%nat) /\
    totalCount result =
      (totalCount types +
       List.length (List.filter (fun s => negb (inherited (typeKey s))) screenshots))%nat.
Proof.
  induction screenshots as [|a l IH]; intros types Hfit; cbn [fold_left].
  - cbn [List.filter List.length]. split; [exact Hfit|].
    split; [intros key _|]; lia.
  - assert (Hfit' : Forall (fun entry => valueFits entry = true)
                           (assign functionSource (typeKey a) types)).
    { unfold assign. destruct (String.eqb (typeKey a) "__proto__") eqn:E; [exact Hfit|].
      apply increment_fits; [now apply String.eqb_neq | exact Hfit]. }
    destruct (IH _ Hfit') as (Hr & Hc & Ht). cbv zeta.
    split; [exact Hr|]. split.
    + intros key Hkey. rewrite (Hc key Hkey). cbn [List.filter].
      unfold inherited in Hkey. apply orb_false_iff in Hkey as [Hp Hf].
      unfold assign. destruct (String.eqb (typeKey a) "__proto__") eqn:E.
      * apply String.eqb_eq in E. rewrite E, String.eqb_sym, Hp. lia.
      * rewrite countOf_increment; [| exact Hf | exact Hfit].
        destruct (String.eqb (typeKey a) key); cbn [List.length]; lia.
    + rewrite Ht. cbn [List.filter]. unfold inherited at 2, assign.
      destruct (String.eqb (typeKey a) "__proto__"); cbn [orb negb]; [lia|].
      rewrite total_increment by exact Hfit.
      destruct (inheritedFunction (typeKey a)); cbn [negb List.length]; lia.
Qed.

End CategorizeFacts.

(** X13: [categorizeScreenshots] counts under its type, or under
    [unknown], every screenshot whose type is not the name of a member
    that a plain object inherits ([__proto__], [constructor], [toString]
    and the like): for such a key the object has the number of screenshots
    of that type, and its numbers add up to the number of these
    screenshots, so to the number of all screenshots when none has an
    inherited name for type. Under an inherited name the object never has
    a number, and it has no property [__proto__] of its own. *)
Theorem X13_categorizeScreenshots_counts
    (functionSource : string -> string) (screenshots : list Screenshot) :
  let types := categorizeScreenshots functionSource screenshots in
  (forall key, inherited key = false ->
     countOf key types =
       List.length (List.filter (fun s => String.eqb (typeKey s) key) screenshots)) /\
  totalCount types =
    List.length (List.filter (fun s => negb (inherited (typeKey s))) screenshots) /\
  ((forall s, In s screenshots -> inherited (typeKey s) = false) ->
   totalCount types = List.length screenshots) /\
  (forall key n, inherited key = true -> lookup key types <> Some (Count n)) /\
  lookup "__proto__" types = None.
Proof.
  cbv zeta. unfold categorizeScreenshots.
  destruct (@categorize_from functionSource screenshots [] (Forall_nil _))
    as (Hfit & Hc & Ht).
  split; [intros key Hkey; now rewrite (Hc key Hkey)|].
  split; [now rewrite Ht|]. split.
  - intros Hall. rewrite Ht. cbn [totalCount map list_sum fold_right Nat.add].
    f_equal. clear -Hall. induction screenshots as [|a l IH]; [reflexivity|].
    cbn [List.filter]. rewrite (Hall a (or_introl eq_refl)). cbn [negb].
    f_equal. apply IH. intros s Hs. apply Hall. now right.
  - split.
    + intros key n Hkey Hl. apply (lookup_fits _ Hfit) in Hl.
      unfold valueFits in Hl. cbn [fst snd] in Hl. unfold inherited in Hkey.
      apply andb_true_iff in Hl as [Hp Hf].
      apply negb_true_iff in Hp, Hf. rewrite Hp, Hf in Hkey. discriminate.
    + destruct (lookup "__proto__" _) as [v|] eqn:Hl; [|reflexivity].
      apply (lookup_fits _ Hfit) in Hl. unfold valueFits in Hl. cbn [fst snd] in Hl.
      rewrite String.eqb_refl in Hl. discriminate.
Qed.

End ShotsFacts.

(** ** The popup *)

Section PopupFacts.

Import JsString Store Popup.

Lemma countStep_counted (stats : Stats) (step : Step) :
  total (countStep stats step) = total stats /\
  (counted (countStep stats step) = counted stats \/
   counted (countStep stats step) = S (counted stats)).
Proof.
  unfold countStep, counted.
  repeat match goal with
         | |- context [if ?c then _ else _] => destruct c
         end; cbn [total error warning success form click navigation];
    split; try reflexivity; lia.
Qed.

Lemma fold_countStep (steps : list Step) :
  forall stats,
    total (fold_left countStep steps stats) = total stats /\
    (counted stats <= counted (fold_left countStep steps stats)
     <= counted stats + List.length steps)%nat.
Proof.
  induction steps as [|s steps IH]; intros stats; cbn [fold_left List.length].
  - split; [reflexivity | lia].
  - destruct (IH (countStep stats s)) as [Ht Hc].
    destruct (countStep_counted stats s) as [Ht' Hc'].
    split; [congruence | lia].
Qed.

Lemma click_countStep (stats : Stats) (s : Step) :
  click (countStep stats s) =
    (click stats +
     if strict_eq (metaAction s) (Some "click"%string) then 1 else 0)%nat.
Proof.
  unfold countStep, Render.opt_or, or_else, strict_eq.
  destruct (metaAction s) as [a|]; [|cbn; lia].
  destruct a as [|c a]; [cbn; lia|]. cbn [truthy].
  destruct (String.eqb (String c a) "click") eqn:E; [cbn [click]; lia|].
  repeat match goal with
         | |- context [if ?c then _ else _] => destruct c
         end; cbn [click]; lia.
Qed.

Lemma fold_click (steps : list Step) :
  forall stats,
    click (fold_left countStep steps stats) =
      (click stats +
       List.length (List.filter
         (fun s => strict_eq (metaAction s) (Some "click"%string)) steps))%nat.
Proof.
  induction steps as [|s steps IH]; intros stats; cbn [fold_left List.filter].
  - cbn. lia.
  - rewrite IH, click_countStep.
    destruct (strict_eq (metaAction s) (Some "click"%string));
      cbn [List.length]; lia.
Qed.

(** X14: in the statistics of the popup, [total] is the number of UI
    steps (all but console and performance entries, focus and blur), the
    six counters together never exceed it, since a step is counted under
    one of them at most, and [click] is the number of UI steps whose
    action is [click]. *)
Theorem X14_calculateStats_counts (steps : list Step) :
  let stats := calculateStats steps in
  total stats = List.length (List.filter Render.isUiStep steps) /\
  (error stats + warning stats + success stats + form stats + click stats +
   navigation stats <= total stats)%nat /\
  click stats =
    List.length (List.filter
      (fun s => strict_eq (metaAction s) (Some "click"%string))
      (List.filter Render.isUiStep steps)).
Proof.
  unfold calculateStats. cbv zeta.
  set (ui := List.filter Render.isUiStep steps).
  set (start := {| total := List.length ui; error := 0; warning := 0; success := 0;
                   form := 0; click := 0; navigation := 0 |}).
  destruct (fold_countStep ui start) as [Ht Hc].
  split; [exact Ht|]. split.
  - rewrite Ht. unfold counted in Hc. cbn in Hc. cbn [total start]. lia.
  - rewrite fold_click. reflexivity.
Qed.

(** X15: the count that heads the step list of the popup is the number of
    steps listed under it: [calculateStats] of the steps that
    [renderSteps] shows has their number as its [total]. *)
Theorem X15_stats_total_is_shown (steps shown : list Step) (filter : string) :
  Render.filteredSteps steps filter = Some shown ->
  total (calculateStats shown) = List.length shown.
Proof.
  intros H. apply filteredSteps_storage_order in H.
  unfold calculateStats. cbv zeta.
  match goal with
  | |- total (fold_left countStep ?l ?s) = _ =>
      rewrite (proj1 (fold_countStep l s))
  end.
  cbn [total]. f_equal. rewrite H.
  rewrite filter_twice. apply filter_ext. intros s. unfold Render.popupKeeps.
  destruct (Render.isUiStep s); cbn [andb]; [apply andb_true_r | reflexivity].
Qed.

Lemma toLowerCase_append (a b : string) :
  toLowerCase (a ++ b) = (toLowerCase a ++ toLowerCase b)%string.
Proof. induction a as [|c a IH]; cbn; [reflexivity | now rewrite IH]. Qed.

Lemma prefix_append (p s : string) : String.prefix p (p ++ s) = true.
Proof.
  induction p as [|c p IH]; cbn; [now destruct s|].
  destruct (ascii_dec c c); [exact IH | congruence].
Qed.

(** X16: what [addProperArticle] returns always begins with an article
    ([the], [a] or [an], in any case of letters): [the element] for a
    blank text, the trimmed text as it is when it begins with an article
    already, and the trimmed text after an article otherwise. *)
Theorem X16_addProperArticle_begins_with_article (text : string) :
  beginsWithArticle (addProperArticle text) = true /\
  (trim text = EmptyString -> addProperArticle text = "the element"%string) /\
  (trim text <> EmptyString ->
   beginsWithArticle (trim text) = true -> addProperArticle text = trim text) /\
  (trim text <> EmptyString ->
   beginsWithArticle (trim text) = false ->
   exists article,
     In article ["the "; "an "; "a "]%string /\
     addProperArticle text = (article ++ trim text)%string).
Proof.
  unfold addProperArticle, beginsWithArticle.
  destruct (negb (truthy text) || String.eqb (trim text) EmptyString) eqn:Eblank.
  - split; [reflexivity|]. split; [reflexivity|].
    assert (Ht : trim text = EmptyString).
    { apply orb_true_iff in Eblank as [H | H].
      - destruct text; [reflexivity | discriminate].
      - now apply String.eqb_eq. }
    split; intros Hn; contradiction.
  - apply orb_false_iff in Eblank as [_ Hne]. apply String.eqb_neq in Hne.
    destruct (startsWith (toLowerCase (trim text)) "the " ||
              startsWith (toLowerCase (trim text)) "a " ||
              startsWith (toLowerCase (trim text)) "an ") eqn:Eart.
    + split; [exact Eart|]. split; [intros; contradiction|].
      split; [reflexivity | discriminate].
    + split.
      * repeat match goal with
               | |- context [if ?c then _ else _] => destruct c
               end; rewrite toLowerCase_append; unfold startsWith;
          [ change (toLowerCase "the ") with "the "%string
          | change (toLowerCase "an ") with "an "%string
          | change (toLowerCase "a ") with "a "%string ];
          rewrite prefix_append; now rewrite ?orb_true_r.
      * split; [intros; contradiction|]. split; [discriminate|].
        intros _ _.
        repeat match goal with
               | |- context [if ?c then _ else _] => destruct c
               end; eexists; (split; [|reflexivity]); cbn; auto.
Qed.

End PopupFacts.

(** ** The steps section of the RTF report *)

Section RtfFacts.

Import JsString Store Render Report.

Lemma stepDescription_none (step : Step) :
  stepDescription step = None <-> rtfAction step = "screenshot"%string.
Proof.
  unfold stepDescription, rtfAction. cbv zeta.
  set (a := opt_or (metaAction step) (opt_or (type step) "action")).
  repeat match goal with
         | |- context [if String.eqb a ?k then _ else _] =>
             let E := fresh "E" in
             destruct (String.eqb a k) eqn:E;
             [apply String.eqb_eq in E; try (rewrite E; split; discriminate)|]
         end.
  - tauto.
  - apply String.eqb_neq in E9. split; [discriminate | contradiction].
Qed.




(** X18: every step the popup lists is a UI step of the RTF report, and
    no focus or blur step is among them, while the RTF report gives a
    focus or blur step a line of its own. *)
Theorem X18_popup_steps_within_rtf (steps shown : list Step) (filter : string) :
  filteredSteps steps filter = Some shown ->
  incl shown (uiSteps steps) /\
  (forall s, In s shown -> focusOrBlur s = false) /\
  (forall s, focusOrBlur s = true -> stepDescription s <> None).
Proof.
  intros H. apply filteredSteps_storage_order in H. subst shown.
  split; [|split].
  - intros s Hs. apply filter_In in Hs as [Hin Hk].
    unfold uiSteps. apply filter_In. split; [exact Hin|].
    unfold popupKeeps, isUiStep in Hk.
    rewrite !andb_true_iff in Hk. rewrite andb_true_iff. tauto.
  - intros s Hs. apply filter_In in Hs as [_ Hk].
    unfold popupKeeps, isUiStep in Hk. rewrite !andb_true_iff in Hk.
    unfold focusOrBlur. apply orb_false_iff.
    destruct Hk as [[[[_ _] Hf] Hb] _].
    split; now apply negb_true_iff.
  - intros s Hs E. apply stepDescription_none in E.
    unfold focusOrBlur in Hs. unfold rtfAction, opt_or in E.
    apply orb_true_iff in Hs as [Hs | Hs]; apply strict_eq_spec in Hs;
      rewrite Hs in E; discriminate E.
Qed.

End RtfFacts.

Section RtfWitnesses.

Import JsString Store Render Report Examples.

Lemma X15_stats_total_witness :
  filteredSteps chronological EmptyString =
    Some [recorded "click" "#open" "Open" 100; recorded "click" "#save" "Save" 200] /\
  Popup.total
    (Popup.calculateStats
       [recorded "click" "#open" "Open" 100; recorded "click" "#save" "Save" 200])
  = 2%nat.
Proof.
  split; [reflexivity|].
  exact (@X15_stats_total_is_shown chronological _ EmptyString eq_refl).
Defined.

Lemma X18_popup_steps_witness :
  filteredSteps chronological EmptyString =
    Some [recorded "click" "#open" "Open" 100; recorded "click" "#save" "Save" 200] /\
  incl [recorded "click" "#open" "Open" 100; recorded "click" "#save" "Save" 200]
       (uiSteps chronological).
Proof.
  split; [reflexivity|].
  exact (proj1 (@X18_popup_steps_within_rtf chronological _ EmptyString eq_refl)).
Defined.

End RtfWitnesses.

(** ** The content script *)

Section InputFacts.

Import JsString Store Content.


End InputFacts.

(** ** Selectors *)

Section SelectorFacts.

Import JsString Dom.

Lemma split_nonempty (s : string) : split s <> [].
Proof.
  induction s as [|c r IH]; cbn [split]; [discriminate|].
  destruct (Ascii.eqb c " "); [discriminate|].
  destruct (split r); discriminate.
Qed.




End SelectorFacts.

(** ** The Word report generator *)

Section BugReportFacts.

Import JsString BugReport.

Lemma slice0_append (a b : string) : slice0 (String.length a) (a ++ b) = a.
Proof. induction a as [|c a IH]; cbn; [now destruct b | now rewrite IH]. Qed.

Lemma length_truncateText (n : nat) (s : string) :
  (String.length (truncateText n s) <= n + 15)%nat.
Proof.
  unfold truncateText. destruct (truthy s) eqn:E; cbn [andb].
  - destruct (Nat.ltb_spec n (String.length s)); [|lia].
    rewrite length_append, length_slice0.
    change (String.length "... [truncated]") with 15%nat. lia.
  - destruct s; [cbn; lia | discriminate E].
Qed.

Lemma truncateText_idempotent (n : nat) (s : string) :
  truncateText n (truncateText n s) = truncateText n s.
Proof.
  destruct (truthy s && (n <? String.length s)%nat) eqn:E.
  - assert (R : truncateText n s = (slice0 n s ++ "... [truncated]")%string)
      by (unfold truncateText; now rewrite E).
    rewrite R. apply andb_true_iff in E as [_ E]. apply Nat.ltb_lt in E.
    assert (Hlen : String.length (slice0 n s) = n)
      by (rewrite length_slice0; lia).
    assert (Hlong : (n <? String.length (slice0 n s ++ "... [truncated]"))%nat = true).
    { apply Nat.ltb_lt. rewrite length_append, Hlen.
      change (String.length "... [truncated]") with 15%nat. lia. }
    assert (Ht : truthy (slice0 n s ++ "... [truncated]") = true).
    { destruct (slice0 n s); reflexivity. }
    unfold truncateText. rewrite Hlong, Ht. cbn [andb]. f_equal.
    rewrite <- Hlen at 1. apply slice0_append.
  - assert (R : truncateText n s = s) by (unfold truncateText; now rewrite E).
    rewrite R. exact R.
Qed.

Lemma limitList_length {A : Type} (n : nat) (l : option (list A)) :
  (lengthOf (limitList n l) <= n)%nat.
Proof.
  destruct l as [l|]; cbn [limitList lengthOf]; [|lia].
  destruct (Nat.ltb_spec n (List.length l)); cbn [lengthOf];
    [rewrite length_firstn; lia | lia].
Qed.

Lemma limitList_idempotent {A : Type} (n : nat) (l : option (list A)) :
  limitList n (limitList n l) = limitList n l.
Proof.
  destruct l as [l|]; cbn [limitList]; [|reflexivity].
  destruct (Nat.ltb_spec n (List.length l)) as [H|H]; cbn [limitList].
  - destruct (Nat.ltb_spec n (List.length (firstn n l))) as [H'|H']; [|reflexivity].
    rewrite length_firstn in H'. lia.
  - destruct (Nat.ltb_spec n (List.length l)); [lia | reflexivity].
Qed.

(** X21: [optimizeBugDataForMemory] leaves at most 10 screenshots and 20
    steps, a summary of at most 5000 characters and an actual result of at
    most 10000, each with the 15 characters of the truncation mark when it
    was cut; applied to its own result it changes nothing. *)
Theorem X21_optimizeBugDataForMemory_bounds (bugData : BugData) :
  let optimized := optimizeBugDataForMemory bugData in
  (lengthOf (screenshots optimized) <= 10)%nat /\
  (lengthOf (stepsToReproduce optimized) <= 20)%nat /\
  (String.length (summary optimized) <= summaryLimit + 15)%nat /\
  (String.length (actualResult optimized) <= actualResultLimit + 15)%nat /\
  optimizeBugDataForMemory optimized = optimized.
Proof.
  cbv zeta. unfold optimizeBugDataForMemory.
  cbn [screenshots summary actualResult stepsToReproduce].
  split; [apply limitList_length|]. split; [apply limitList_length|].
  split; [apply length_truncateText|]. split; [apply length_truncateText|].
  now rewrite !limitList_idempotent, !truncateText_idempotent.
Qed.

End BugReportFacts.

(** ** Crop rectangles *)

Section CropFacts.

Import JsString Codec Crop Selection.
Local Open Scope Z_scope.

Variable P : Platform.

(** X22: clamping a rectangle that was clamped to the same image changes
    nothing, and a rectangle inside the image is left as it is. *)
Theorem X22_clampArea_idempotent (imageBitmap : ImageBitmap) (area : Area) :
  1 <= imageWidth imageBitmap -> 1 <= imageHeight imageBitmap ->
  clampArea imageBitmap (clampArea imageBitmap area) = clampArea imageBitmap area /\
  (withinImage imageBitmap area -> clampArea imageBitmap area = area).
Proof.
  intros HW HH. split; [|apply clampArea_inside].
  apply clampArea_inside. now apply clampArea_within.
Qed.

Lemma crop_resolved_dimensions
    (dataURL : string) (area : Area) (canvas : Canvas) (result : string) :
  cropScreenshotToArea P dataURL (Some area) = Resolved (canvas, result) ->
  1 <= canvasWidth canvas <= 10000 /\ 1 <= canvasHeight canvas <= 10000 /\
  truthy dataURL = true /\
  x area <> 0 /\ y area <> 0 /\ width area <> 0 /\ height area <> 0.
Proof.
  unfold cropScreenshotToArea, truthyNumber.
  destruct (truthy dataURL); cbn [negb]; [|discriminate].
  destruct (x area =? 0) eqn:Ex; cbn [negb orb]; [discriminate|].
  destruct (y area =? 0) eqn:Ey; cbn [negb orb]; [discriminate|].
  destruct (width area =? 0) eqn:Ew; cbn [negb orb]; [discriminate|].
  destruct (height area =? 0) eqn:Eh; cbn [negb orb]; [discriminate|].
  destruct (fetch P dataURL) as [response|]; [|discriminate].
  destruct (responseOk response); cbn [negb]; [|discriminate].
  destruct (blob response) as [b|]; [|discriminate].
  destruct (createImageBitmap P b) as [imageBitmap|]; [|discriminate].
  destruct (_ || _ || _ || _) eqn:Eguard; [discriminate|].
  repeat match goal with
         | |- context [match ?c with _ => _ end] =>
             destruct c eqn:?; try discriminate
         end.
  intros [= <- _]. cbn [canvasWidth canvasHeight].
  rewrite !orb_false_iff in Eguard. destruct Eguard as [[[G1 G2] G3] G4].
  apply Z.leb_gt in G1, G2. apply Z.ltb_ge in G3, G4.
  apply Z.eqb_neq in Ex, Ey, Ew, Eh. repeat split; auto; lia.
Qed.

(** X23: a crop that succeeds came from a data URL that is not empty and a
    rectangle with no zero among its four numbers; its canvas is between 1
    and 10000 pixels wide and high; and when the rectangle lies inside the
    image, the canvas is the rectangle as it was asked for. *)
Theorem X23_crop_success (dataURL : string) (area : Area) (canvas : Canvas) (result : string) :
  cropScreenshotToArea P dataURL (Some area) = Resolved (canvas, result) ->
  truthy dataURL = true /\
  (x area <> 0 /\ y area <> 0 /\ width area <> 0 /\ height area <> 0) /\
  1 <= canvasWidth canvas <= 10000 /\
  1 <= canvasHeight canvas <= 10000 /\
  (withinImage (sourceImage canvas) area -> sourceRect canvas = area).
Proof.
  intros H.
  destruct (crop_resolved_dimensions _ _ H) as (Hw & Hh & Hurl & Hnz).
  destruct (crop_resolved _ _ _ H) as (Hrect & _ & _).
  split; [exact Hurl|]. split; [exact Hnz|]. split; [exact Hw|]. split; [exact Hh|].
  intros Hin. rewrite Hrect. now apply clampArea_inside.
Qed.

(** X24: the area that [captureSelectedArea] sends does not depend on the
    direction of the drag; its width and height are between 10 and 5000
    and its origin is the smaller of the two corners; clamped to any image
    that has pixels, it is a rectangle inside the image, at most 5000
    wide and high. *)
Theorem X24_captureSelectedArea_bounds (selectionStart selectionEnd : Point) (area : Area) :
  captureSelectedArea selectionStart selectionEnd = Some area ->
  captureSelectedArea selectionEnd selectionStart = Some area /\
  10 <= width area <= 5000 /\ 10 <= height area <= 5000 /\
  x area = Z.min (px selectionStart) (px selectionEnd) /\
  y area = Z.min (py selectionStart) (py selectionEnd) /\
  (forall imageBitmap,
     1 <= imageWidth imageBitmap -> 1 <= imageHeight imageBitmap ->
     withinImage imageBitmap (clampArea imageBitmap area) /\
     width (clampArea imageBitmap area) <= 5000 /\
     height (clampArea imageBitmap area) <= 5000).
Proof.
  unfold captureSelectedArea. cbv zeta.
  replace (Z.abs (px selectionStart - px selectionEnd))
    with (Z.abs (px selectionEnd - px selectionStart)) by lia.
  replace (Z.abs (py selectionStart - py selectionEnd))
    with (Z.abs (py selectionEnd - py selectionStart)) by lia.
  rewrite (Z.min_comm (px selectionEnd)), (Z.min_comm (py selectionEnd)).
  destruct (_ || _) eqn:Esmall; [discriminate|].
  destruct ((5000 <? _) || _) eqn:Ebig; [discriminate|].
  intros [= <-]. cbn [x y width height].
  apply orb_false_iff in Esmall as [S1 S2]. apply orb_false_iff in Ebig as [B1 B2].
  apply Z.ltb_ge in S1, S2, B1, B2.
  split; [reflexivity|]. split; [lia|]. split; [lia|].
  split; [reflexivity|]. split; [reflexivity|].
  intros imageBitmap HW HH. split; [now apply clampArea_within|].
  unfold clampArea. cbv zeta. cbn [x y width height].
  split;
    match goal with
    | |- Z.max 1 (if ?a <? ?b then _ else _) <= _ => destruct (Z.ltb_spec a b)
    end; lia.
Qed.

End CropFacts.

(** ** The recording state *)

Section RecordingFacts.

Import Recording.

Lemma orNull_idempotent (v : JsValue) : orNull (orNull v) = orNull v.
Proof. unfold orNull. destruct (truthyValue v) eqn:E; [now rewrite E | reflexivity]. Qed.

Lemma orNull_normal (v : JsValue) :
  orNull v = JsNull \/ truthyValue (orNull v) = true.
Proof. unfold orNull. destruct (truthyValue v) eqn:E; auto. Qed.

(** X25: the recording state that [get-persistent-state] answers after
    [update-recording-state] is the one that was written; it has a flag
    that is [true] only for a message whose [isRecording] is the boolean
    [true], and a session id and a start time that are [null] unless the
    message had a truthy one. *)
Theorem X25_recording_state_round_trip (message : State) :
  getPersistentState (updateRecordingState message) = updateRecordingState message /\
  normalized (updateRecordingState message) /\
  (isRecording (updateRecordingState message) = JsBool true <->
   isRecording message = JsBool true).
Proof.
  unfold getPersistentState, updateRecordingState, normalized.
  cbn [isRecording sessionId startTime]. split; [|split; [|split]].
  - rewrite !orNull_idempotent. f_equal.
    now destruct (isRecording message) as [| |[]| |].
  - split; [eexists; reflexivity|]. split; apply orNull_normal.
  - destruct (isRecording message) as [| |[]| |]; cbn; congruence.
  - now intros ->.
Qed.

End RecordingFacts.

(** ** Session duration *)

Section DurationFacts.

Import JsString Shots Duration.
Local Open Scope Z_scope.

Lemma insert_In (t : Z) (l : list Z) (a : Z) :
  In a (insert t l) <-> a = t \/ In a l.
Proof.
  induction l as [|b l IH]; cbn [insert In]; [intuition|].
  destruct (t <=? b); cbn [In]; [intuition|]. rewrite IH. intuition.
Qed.

Lemma insert_sorted (t : Z) (l : list Z) :
  StronglySorted Z.le l -> StronglySorted Z.le (insert t l).
Proof.
  induction 1 as [|b l Hs IH Hall]; cbn [insert].
  - constructor; constructor.
  - destruct (Z.leb_spec t b).
    + constructor; [now constructor|].
      constructor; [exact H|]. rewrite Forall_forall in *. intros c Hc.
      specialize (Hall c Hc). lia.
    + constructor; [exact IH|]. rewrite Forall_forall in *. intros c Hc.
      apply insert_In in Hc as [-> | Hc]; [lia | now apply Hall].
Qed.

Lemma sortNumbers_In (l : list Z) (a : Z) : In a (sortNumbers l) <-> In a l.
Proof.
  induction l as [|b l IH]; cbn [sortNumbers fold_right In]; [tauto|].
  fold (sortNumbers l). rewrite insert_In, IH. intuition.
Qed.

Lemma sortNumbers_sorted (l : list Z) : StronglySorted Z.le (sortNumbers l).
Proof.
  induction l as [|b l IH]; cbn [sortNumbers fold_right]; [constructor|].
  now apply insert_sorted.
Qed.

Lemma sorted_bounds (l : list Z) :
  StronglySorted Z.le l -> l <> [] ->
  In (hd 0 l) l /\ In (last l 0) l /\
  forall t, In t l -> hd 0 l <= t <= last l 0.
Proof.
  induction 1 as [|a l Hs IH Hall]; intros Hne; [contradiction|].
  destruct l as [|b l].
  - cbn. split; [now left|]. split; [now left|]. intros t [<- | []]. lia.
  - destruct (IH ltac:(discriminate)) as (Hhd & Hlast & Hb).
    rewrite Forall_forall in Hall.
    change (last (a :: b :: l) 0) with (last (b :: l) 0).
    cbn [hd]. split; [now left|]. split; [now right|].
    intros t [<- | Ht].
    + split; [lia|]. apply Hall. exact Hlast.
    + split; [now apply Hall|]. apply Hb. exact Ht.
Qed.

(** X26: when [calculateSessionDuration] has a duration to print, it is
    the time from the earliest to the latest of the usable timestamps
    (those that are there and are not 0), whatever the order of the
    screenshots, and is not negative; the seconds it prints are between 0
    and 59. *)
Theorem X26_session_duration_span (screenshots : list Screenshot) (durationMs : Z) :
  sessionDurationMs (Some screenshots) = Some durationMs ->
  (exists earliest latest,
     In earliest (usableTimestamps screenshots) /\
     In latest (usableTimestamps screenshots) /\
     (forall t, In t (usableTimestamps screenshots) -> earliest <= t <= latest) /\
     durationMs = latest - earliest) /\
  0 <= durationMs /\
  0 <= secondsOf durationMs <= 59.
Proof.
  unfold sessionDurationMs.
  destruct (List.length screenshots <? 2)%nat; [discriminate|]. cbv zeta.
  destruct (Nat.ltb_spec (List.length (sortNumbers (usableTimestamps screenshots))) 2)
    as [|Hlen]; [discriminate|].
  intros [= <-].
  assert (Hne : sortNumbers (usableTimestamps screenshots) <> []).
  { intros E. rewrite E in Hlen. cbn in Hlen. lia. }
  destruct (sorted_bounds (sortNumbers_sorted (usableTimestamps screenshots)) Hne)
    as (Hhd & Hlast & Hb).
  assert (Hpos : 0 <= last (sortNumbers (usableTimestamps screenshots)) 0 -
                      hd 0 (sortNumbers (usableTimestamps screenshots))).
  { specialize (Hb _ Hlast). lia. }
  split; [|split; [exact Hpos|]].
  - exists (hd 0 (sortNumbers (usableTimestamps screenshots))),
           (last (sortNumbers (usableTimestamps screenshots)) 0).
    split; [now apply sortNumbers_In|]. split; [now apply sortNumbers_In|].
    split; [|reflexivity]. intros t Ht. apply Hb. now apply sortNumbers_In.
  - unfold secondsOf.
    set (d := last (sortNumbers (usableTimestamps screenshots)) 0 -
              hd 0 (sortNumbers (usableTimestamps screenshots))) in *.
    pose proof (Z.rem_bound_pos d 60000 Hpos ltac:(lia)) as Hr.
    split.
    + apply Z.div_pos; lia.
    + assert (Z.rem d 60000 / 1000 < 60); [|lia].
      apply Z.div_lt_upper_bound; lia.
Qed.

End DurationFacts.

(** ** Sensitive identifiers *)

Section SensitiveFacts.

Import JsString Redactor.

Lemma existsb_includes (s keyword : string) :
  In keyword SENSITIVE_KEYWORDS ->
  includes s keyword = true ->
  existsb (includes s) SENSITIVE_KEYWORDS = true.
Proof. intros Hin H. apply existsb_exists. eauto. Qed.

(** X27: an identifier that contains one of the keywords, in any case of
    letters and anywhere in it, is sensitive, and [getSafeText] answers the
    marker for an element with such an identifier. *)
Theorem X27_keyword_anywhere_is_sensitive
    (before word after keyword : string) (element : Element) (rawValue : string) :
  In keyword SENSITIVE_KEYWORDS ->
  toLowerCase word = keyword ->
  SENSITIVE_PATTERNS (before ++ word ++ after) = true /\
  (fieldIdentifier element = (before ++ word ++ after)%string ->
   getSafeText (Some element) rawValue = REDACTED).
Proof.
  intros Hin Hword.
  assert (Hs : SENSITIVE_PATTERNS (before ++ word ++ after) = true).
  { unfold SENSITIVE_PATTERNS. apply existsb_includes with (keyword := keyword);
      [exact Hin|].
    rewrite !toLowerCase_append, Hword.
    apply includes_append_left, includes_prefix, prefix_append. }
  split; [exact Hs|].
  intros Hid. unfold getSafeText. cbv zeta. now rewrite Hid, Hs.
Qed.

End SensitiveFacts.

Section MoreWitnesses.

Import JsString Codec Crop Selection Examples.
Local Open Scope Z_scope.

Lemma X22_clampArea_witness :
  1 <= imageWidth image100 /\ 1 <= imageHeight image100 /\
  clampArea image100 (clampArea image100 pastTheEdges) = clampArea image100 pastTheEdges.
Proof.
  assert (HW : 1 <= imageWidth image100) by (cbn; lia).
  assert (HH : 1 <= imageHeight image100) by (cbn; lia).
  split; [exact HW|]. split; [exact HH|].
  exact (proj1 (@X22_clampArea_idempotent image100 pastTheEdges HW HH)).
Defined.

Lemma X23_crop_success_witness :
  cropScreenshotToArea okPlatform pngDataURL (Some insideArea) =
    Resolved ({| canvasWidth := 30; canvasHeight := 40; sourceImage := image100;
                 sourceRect := insideArea |},
              "data:image/jpeg;base64,jpeg"%string) /\
  withinImage image100 insideArea /\
  sourceRect {| canvasWidth := 30; canvasHeight := 40; sourceImage := image100;
                sourceRect := insideArea |} = insideArea.
Proof.
  assert (H : cropScreenshotToArea okPlatform pngDataURL (Some insideArea) =
    Resolved ({| canvasWidth := 30; canvasHeight := 40; sourceImage := image100;
                 sourceRect := insideArea |},
              "data:image/jpeg;base64,jpeg"%string)) by (vm_compute; reflexivity).
  assert (Hin : withinImage image100 insideArea)
    by (unfold withinImage; cbn; lia).
  split; [exact H|]. split; [exact Hin|].
  exact (proj2 (proj2 (proj2 (proj2 (@X23_crop_success _ _ _ _ _ H)))) Hin).
Defined.

Lemma X24_captureSelectedArea_witness :
  captureSelectedArea dragStart dragEnd =
    Some {| x := 20; y := 40; width := 100; height := 50 |} /\
  captureSelectedArea dragEnd dragStart =
    Some {| x := 20; y := 40; width := 100; height := 50 |}.
Proof.
  split; [reflexivity|].
  exact (proj1 (@X24_captureSelectedArea_bounds dragStart dragEnd _ eq_refl)).
Defined.

Lemma X26_session_duration_witness :
  Duration.sessionDurationMs (Some threeShots) = Some 125500 /\
  Duration.calculateSessionDuration (Some threeShots) = "2m 5s"%string /\
  0 <= Duration.secondsOf 125500 <= 59.
Proof.
  split; [reflexivity|]. split; [reflexivity|].
  exact (proj2 (proj2 (@X26_session_duration_span threeShots 125500 eq_refl))).
Defined.

Lemma X27_keyword_witness :
  In "password"%string Redactor.SENSITIVE_KEYWORDS /\
  toLowerCase "PassWord" = "password"%string /\
  Redactor.SENSITIVE_PATTERNS ("user" ++ "PassWord" ++ "1") = true.
Proof.
  assert (Hin : In "password"%string Redactor.SENSITIVE_KEYWORDS) by (left; reflexivity).
  split; [exact Hin|]. split; [reflexivity|].
  exact (proj1 (@X27_keyword_anywhere_is_sensitive "user" "PassWord" "1" "password"
                  passwordField EmptyString Hin eq_refl)).
Defined.

End MoreWitnesses.
